(** * Zoom Earth rain alert: a shallow embedding of [zoom_earth_rain_alert.py]

  The script opens a radar map in a browser, steps the map's clock
  forward to "now + 15 minutes", takes a screenshot and decides from the
  colours around the screen centre whether rain is likely.

  Conventions of the embedding:
  - Python [float] values are modelled by exact rationals ([Q]); the
    literals of the script ([0.26], [255.0], [360.0], [0.10], ...) are
    their decimal values.  Comparisons are the boolean tests of [Q].
  - A Python exception is a value of [Py.exn]; a computation that may raise
    has type [Py.result A] (pure code) or [Io.io W A] (code that talks to
    the browser, the wall clock, the notification sink or standard output).
  - [print] calls are modelled by structured [Trace.Line] values rather
    than by formatted text, so that what the script did can be read back
    from its trace.  Error messages that quote another exception
    ([{e!r}]) keep their fixed part only. *)

From Stdlib Require Import ZArith QArith Qround List String Ascii Bool Lia Lqa.
From Stdlib.Strings Require Import Byte.
From Stdlib Require DecimalString.
Import ListNotations.

Set Implicit Arguments.

(** ** Python exceptions and fallible computations *)

Module Py.

(** The exception classes that the script raises or handles.  Every one
    of them derives from Python's [Exception]. *)
Inductive exn : Type :=
| ZeroDivisionError
| ValueError (msg : string)
| WebDriverException (msg : string)
| HTTPError (msg : string)
| NextButtonNotClickable (msg : string).

Inductive result (A : Type) : Type :=
| Ok (a : A)
| Raise (e : exn).

Arguments Ok {A} a.
Arguments Raise {A} e.

Definition bind {A B} (c : result A) (k : A -> result B) : result B :=
  match c with
  | Ok a => k a
  | Raise e => Raise e
  end.

(** Float division [a / b]: raises on a zero divisor. *)
Definition truediv (a b : Q) : result Q :=
  if Qeq_bool b 0 then Raise ZeroDivisionError else Ok (a / b).

(** [x % 1.0] for a float [x]: the fractional part, in [0, 1). *)
Definition mod1 (x : Q) : Q := x - inject_Z (Qfloor x).

Definition Qlt_bool (a b : Q) : bool := negb (Qle_bool b a).

(** [max(a, b)] and [min(a, b)]: Python keeps the first argument on ties. *)
Definition max2 (a b : Q) : Q := if Qlt_bool a b then b else a.
Definition min2 (a b : Q) : Q := if Qlt_bool b a then b else a.
Definition max3 (a b c : Q) : Q := max2 (max2 a b) c.
Definition min3 (a b c : Q) : Q := min2 (min2 a b) c.

End Py.

Declare Scope py_scope.
Delimit Scope py_scope with py.
Notation "x <- c ;; k" := (Py.bind c (fun x => k))
(at level 61, c at next level, right associativity) : py_scope.
Notation "' pat <- c ;; k" := (Py.bind c (fun x => match x with pat => k end))
(at level 61, pat pattern, c at next level, right associativity) : py_scope.

(** ** The colour classifier *)

Module Color.
Import Py.
Local Open Scope Q_scope.
Local Open Scope py_scope.

Definition RGB : Type := (Q * Q * Q)%type.
Definition HSV : Type := (Q * Q * Q)%type.

Definition SATURATION_THRESHOLD : Q := 26 # 100.

Definition HUE_RANGES_DEG : list (Q * Q) :=
  [ (170, 260); (0, 60); (260, 330) ].

Definition RAIN_SCORE_THRESHOLD : Q := 110.

(** [colorsys.rgb_to_hsv] of the Python standard library. *)
Definition rgb_to_hsv (r g b : Q) : result HSV :=
  let maxc := max3 r g b in
  let minc := min3 r g b in
  let rangec := maxc - minc in
  let v := maxc in
  if Qeq_bool minc maxc then Ok (0, 0, v)
  else
    s <- truediv rangec maxc ;;
    rc <- truediv (maxc - r) rangec ;;
    gc <- truediv (maxc - g) rangec ;;
    bc <- truediv (maxc - b) rangec ;;
    let h := if Qeq_bool r maxc then bc - gc
             else if Qeq_bool g maxc then 2 + rc - bc
             else 4 + gc - rc in
    Ok (mod1 (h / 6), s, v).

Definition rgb_to_hsv_deg (rgb : RGB) : result HSV :=
  let '(r, g, b) := rgb in
  let r1 := r / 255 in
  let g1 := g / 255 in
  let b1 := b / 255 in
  '(h, s, v) <- rgb_to_hsv r1 g1 b1 ;;
  Ok (h * 360, s, v).

Fixpoint hue_in_ranges (h_deg : Q) (ranges : list (Q * Q)) : bool :=
  match ranges with
  | [] => false
  | (a, b) :: rest =>
      if Qle_bool a b then
        if Qle_bool a h_deg && Qle_bool h_deg b then true
        else hue_in_ranges h_deg rest
      else
        if Qle_bool a h_deg || Qle_bool h_deg b then true
        else hue_in_ranges h_deg rest
  end.

(** The diagnostic text returned next to the verdict, kept structured:
    the HSV triple and the branch that produced it. *)
Inductive Reason : Type :=
| LowSaturation (hsv : HSV)      (* "HSV=(..) S<0.26" *)
| HueOutside (hsv : HSV)         (* "HSV=(..) H不在雨色带" *)
| HueHit (hsv : HSV).            (* "HSV=(..) 命中雨色带" *)

Definition is_rain_color (rgb : RGB) : result (bool * Reason) :=
  '(h, s, v) <- rgb_to_hsv_deg rgb ;;
  if Qlt_bool s SATURATION_THRESHOLD then Ok (false, LowSaturation (h, s, v))
  else if negb (hue_in_ranges h HUE_RANGES_DEG) then Ok (false, HueOutside (h, s, v))
  else Ok (true, HueHit (h, s, v)).

Definition rain_score (rgb : RGB) : Q :=
  let '(r, g, b) := rgb in
  let warm := r in
  let purple := (r + b) * (6 # 10) in
  let penalty_green := g * (9 # 10) in
  warm + purple - penalty_green.

(** What the specification says of one hue range: an inclusive interval,
    or, when the bounds are swapped, everything outside the gap. *)
Definition spec_range_matches (h : Q) (range : Q * Q) : Prop :=
  let '(low, high) := range in
  (low <= high /\ low <= h /\ h <= high) \/
  (high < low /\ (low <= h \/ h <= high)).

End Color.

(** ** Screenshots and the region sampler *)

Module Region.
Import Py Color.
Local Open Scope Z_scope.
Local Open Scope py_scope.

(** One pixel of an image in mode "RGB": three 8-bit channels. *)
Definition Pixel : Type := (byte * byte * byte)%type.

Definition black : Pixel := (x00, x00, x00).

(** A [PIL.Image]: its size and, for every coordinate inside it, the pixel
    that [convert("RGB")] gives there. *)
Record Image : Type := mkImage {
  width : N;
  height : N;
  getpixel : Z -> Z -> Pixel
}.

(** The result of [crop(...).convert("RGB")]: [size] and the row-major
    pixel sequence of [getdata()]. *)
Record Cropped : Type := mkCropped {
  size : Z * Z;
  data : list Pixel
}.

(** [range(lo, hi)] *)
Definition zrange (lo hi : Z) : list Z :=
  map (fun i => lo + Z.of_nat i) (seq 0 (Z.to_nat (hi - lo))).

Definition inside (img : Image) (x y : Z) : bool :=
  (0 <=? x) && (x <? Z.of_N (width img)) && (0 <=? y) && (y <? Z.of_N (height img)).

(** Pillow's [Image.crop(box)] with [box = (left, upper, right, lower)],
    here [(x0, y0, x1, y1)].
    A box whose right edge is left of its left edge (or whose lower edge is
    above its upper edge) is refused with [ValueError], as current Pillow
    releases do ([if box[2] < box[0]: raise ValueError(...)]); a box of zero
    width or height gives an image without pixels; the part of a box that
    lies outside the image is filled with black. *)
Definition crop (img : Image) (box : Z * Z * Z * Z) : result Cropped :=
  let '(x0, y0, x1, y1) := box in
  if x1 <? x0 then Raise (ValueError "Coordinate 'right' is less than 'left'")
  else if y1 <? y0 then Raise (ValueError "Coordinate 'lower' is less than 'upper'")
  else Ok {| size := (x1 - x0, y1 - y0);
             data := flat_map
                       (fun y => map (fun x => if inside img x y then getpixel img x y else black)
                                     (zrange x0 x1))
                       (zrange y0 y1) |}.

(** The box both samplers compute from the centre and the radius. *)
Definition clamped_box (img : Image) (center_xy : Z * Z) (radius : Z) : Z * Z * Z * Z :=
  let '(cx, cy) := center_xy in
  let x0 := Z.max (cx - radius) 0 in
  let y0 := Z.max (cy - radius) 0 in
  let x1 := Z.min (cx + radius) (Z.of_N (width img) - 1) in
  let y1 := Z.min (cy + radius) (Z.of_N (height img) - 1) in
  (x0, y0, x1 + 1, y1 + 1).

(** [float(c)] for a channel value. *)
Definition channel (c : byte) : Q := inject_Z (Z.of_N (Byte.to_N c)).

Definition to_rgb (p : Pixel) : RGB :=
  let '(r, g, b) := p in (channel r, channel g, channel b).

Definition red (p : Pixel) : Z := let '(r, _, _) := p in Z.of_N (Byte.to_N r).
Definition green (p : Pixel) : Z := let '(_, g, _) := p in Z.of_N (Byte.to_N g).
Definition blue (p : Pixel) : Z := let '(_, _, b) := p in Z.of_N (Byte.to_N b).

(** [sum(f(p) for p in pixels)] *)
Definition sum_of (f : Pixel -> Z) (pixels : list Pixel) : Z :=
  fold_left (fun acc p => acc + f p) pixels 0.

Definition len (pixels : list Pixel) : Z := Z.of_nat (List.length pixels).

Definition avg_color (img : Image) (center_xy : Z * Z) (radius : Z) : result RGB :=
  region <- crop img (clamped_box img center_xy radius) ;;
  let pixels := data region in
  match pixels with
  | [] => Ok (0, 0, 0)%Q
  | _ =>
      r <- truediv (inject_Z (sum_of red pixels)) (inject_Z (len pixels)) ;;
      g <- truediv (inject_Z (sum_of green pixels)) (inject_Z (len pixels)) ;;
      b <- truediv (inject_Z (sum_of blue pixels)) (inject_Z (len pixels)) ;;
      Ok (r, g, b)
  end.

(** The [for (r, g, b) in pixels] loop of [rain_coverage], started with the
    current values of [hit] and [sample_hsv]. *)
Fixpoint rain_coverage_loop (pixels : list Pixel) (hit : Z) (sample_hsv : option HSV)
  : result (Z * option HSV) :=
  match pixels with
  | [] => Ok (hit, sample_hsv)
  | p :: rest =>
      '(ok, _) <- is_rain_color (to_rgb p) ;;
      if ok : bool then
        match sample_hsv with
        | None =>
            hsv <- rgb_to_hsv_deg (to_rgb p) ;;
            rain_coverage_loop rest (hit + 1) (Some hsv)
        | Some _ => rain_coverage_loop rest (hit + 1) sample_hsv
        end
      else rain_coverage_loop rest hit sample_hsv
  end.

(** The debug text returned next to the ratio, kept structured. *)
Inductive CoverageInfo : Type :=
| EmptyRegion                                   (* "empty region" *)
| Sampled (region_size : Z * Z) (hit total : Z) (ratio : Q)
          (sample_hit_HSV : option HSV).        (* "region=.. hit=../.. ratio=.. sample_hit_HSV=.." *)

Definition rain_coverage (img : Image) (center_xy : Z * Z) (radius : Z)
  : result (Q * CoverageInfo) :=
  region <- crop img (clamped_box img center_xy radius) ;;
  let pixels := data region in
  match pixels with
  | [] => Ok (0%Q, EmptyRegion)
  | _ =>
      '(hit, sample_hsv) <- rain_coverage_loop pixels 0 None ;;
      ratio <- truediv (inject_Z hit) (inject_Z (len pixels)) ;;
      Ok (ratio, Sampled (size region) hit (len pixels) ratio sample_hsv)
  end.

(** The verdict of the classifier on one pixel, as a boolean. *)
Definition pixel_is_rain (p : Pixel) : bool :=
  match is_rain_color (to_rgb p) with
  | Ok (ok, _) => ok
  | Raise _ => false
  end.

(** [hitCount] of the specification: the pixels of a list that the
    classifier accepts. *)
Definition hit_count (pixels : list Pixel) : Z :=
  Z.of_nat (List.length (filter pixel_is_rain pixels)).

(** Test images. *)
Definition px (r g b : N) : Pixel :=
  let c n := match Byte.of_N n with Some x => x | None => x00 end in
  (c r, c g, c b).

Definition uniform (w h : N) (p : Pixel) : Image :=
  {| width := w; height := h; getpixel := fun _ _ => p |}.

End Region.

(** ** Text helpers: the [str] methods the script uses *)

Module Text.
Import Py.
Local Open Scope string_scope.
Local Open Scope Z_scope.

(** ASCII white space, as removed by [str.strip()]. *)
Definition is_space (c : ascii) : bool :=
  let n := nat_of_ascii c in
  ((9 <=? n) && (n <=? 13) || (28 <=? n) && (n <=? 32))%nat.

Fixpoint lstrip (s : string) : string :=
  match s with
  | String c rest => if is_space c then lstrip rest else s
  | EmptyString => EmptyString
  end.

Fixpoint rstrip (s : string) : string :=
  match s with
  | String c rest =>
      match rstrip rest with
      | EmptyString => if is_space c then EmptyString else String c EmptyString
      | rest' => String c rest'
      end
  | EmptyString => EmptyString
  end.

Definition strip (s : string) : string := rstrip (lstrip s).

(** [str.upper()] on the ASCII letters; the bytes of other characters are
    left as they are. *)
Definition upper_char (c : ascii) : ascii :=
  let n := nat_of_ascii c in
  if ((97 <=? n) && (n <=? 122))%nat then ascii_of_nat (n - 32) else c.

Fixpoint upper (s : string) : string :=
  match s with
  | String c rest => String (upper_char c) (upper rest)
  | EmptyString => EmptyString
  end.

(** [needle in hay] *)
Fixpoint contains (needle hay : string) : bool :=
  if prefix needle hay then true
  else match hay with
       | String _ rest => contains needle rest
       | EmptyString => false
       end.

(** [not s] for a string: true on the empty string. *)
Definition is_empty (s : string) : bool :=
  match s with EmptyString => true | _ => false end.

(** [t or ""] for a text that may be [None]. *)
Definition or_empty (t : option string) : string :=
  match t with Some s => s | None => EmptyString end.

Definition digit_of (c : ascii) : option Z :=
  let n := nat_of_ascii c in
  if ((48 <=? n) && (n <=? 57))%nat then Some (Z.of_nat (n - 48)) else None.

(** The digits of an integer literal: decimal digits, single underscores
    allowed between two digits.  [after_digit] tells whether the previous
    character was a digit. *)
Fixpoint int_digits (s : string) (acc : Z) (after_digit : bool) : option Z :=
  match s with
  | EmptyString => if after_digit then Some acc else None
  | String c rest =>
      match digit_of c with
      | Some d => int_digits rest (10 * acc + d) true
      | None =>
          if (Ascii.eqb c "_" && after_digit)%bool then
            match rest with
            | EmptyString => None
            | String c' _ =>
                match digit_of c' with
                | Some _ => int_digits rest acc false
                | None => None
                end
            end
          else None
      end
  end.

(** The number of decimal digits in a literal. *)
Fixpoint digit_count (s : string) : nat :=
  match s with
  | EmptyString => 0%nat
  | String c rest =>
      match digit_of c with
      | Some _ => S (digit_count rest)
      | None => digit_count rest
      end
  end.

(** [int(s)] for a string [s]: optional ASCII white space around an optional
    sign and ASCII decimal digits; [ValueError] otherwise, and for a literal
    of more than 4300 digits ([sys.get_int_max_str_digits()]).  Digits and
    white space outside ASCII, which [int] also accepts, are not modelled:
    such a text counts as unparsable. *)
Definition int (s : string) : result Z :=
  let body := strip s in
  let parsed :=
    match body with
    | String "-" rest => option_map Z.opp (int_digits rest 0 false)
    | String "+" rest => int_digits rest 0 false
    | _ => int_digits body 0 false
    end in
  match parsed with
  | Some n =>
      if (4300 <? digit_count body)%nat
      then Raise (ValueError "Exceeds the limit (4300 digits) for integer string conversion")
      else Ok n
  | None => Raise (ValueError "invalid literal for int() with base 10")
  end.


End Text.

(** ** Standard output, the browser and the notification sink *)

Module Trace.
Import Py.

(** What the script shows in its debug line (the [debug_msg] f-string). *)
Record DebugMsg : Type := mkDebugMsg {
  dbg_sample_xy : Z * Z;
  dbg_rgb : Color.RGB;
  dbg_score : Q;
  dbg_score_threshold : Q;
  dbg_s_threshold : Q;
  dbg_coverage : Q;
  dbg_cov : Region.CoverageInfo
}.

(** One [print] call of the script, by the statement that makes it. *)
Inductive Line : Type :=
| SeekTarget (minutes_ahead : Z) (target_hhmm : Z * Z)   (* "[4/6] 目标时间=..." *)
| SeekCurrent (hhmm : option (Z * Z))                    (* "- 当前页面时间: ..." *)
| SeekReached (hhmm target_hhmm : Z * Z)                 (* "- 已达到目标：..." *)
| SeekClick (btn_name : string) (i max_clicks : nat)     (* "- click minute.up (i/max)" *)
| SeekBlocked (e : exn)                                  (* "[WARN] 已到达最新可用时间..." *)
| SeekExhausted                                          (* "[WARN] 点击次数已到上限..." *)
| ScriptVersion
| Step (label : string)                                  (* "[1/6] ...", "[2/6] ...", ... *)
| LoadFailed (i load_attempts : nat) (e : exn)
| RetryIn3s
| LoadGaveUp
| ScreenshotSaved (path : string)
| Debug (debug_msg : DebugMsg)
| ResultRainDetected                                     (* "[RESULT] RAIN_DETECTED" *)
| Message (msg : string)
| ResultNoRain                                           (* "[RESULT] NO_RAIN_DETECTED" *)
| NoEchoFound                                            (* "未检测到雷达回波色带覆盖（仅供参考）。" *)
| WebhookEmpty (content : string)                        (* "[WARN] WEBHOOK 为空，只打印不发送：" *)
| ErrorLine (e : exn)                                    (* "[ERROR] 运行过程中出现异常：" *)
| Cleanup.                                               (* "[CLEANUP] 关闭浏览器" *)

(** What can be observed of a run: its output lines and the requests it
    posts to the webhook, with the text content of their JSON body. *)
Inductive Event : Type :=
| Print (line : Line)
| HttpPost (webhook content : string).

End Trace.

Module Io.
Import Py Trace.

(** A computation over the state [W] of the outside world (browser, page,
    wall clock, notification sink) that appends to the trace and may
    raise.  The world and the trace keep what happened before a raise. *)
Definition io (W A : Type) : Type := W * list Event -> (W * list Event) * result A.

Definition ret {W A} (a : A) : io W A := fun st => (st, Ok a).

Definition bind {W A B} (c : io W A) (k : A -> io W B) : io W B :=
  fun st =>
    match c st with
    | (st', Ok a) => k a st'
    | (st', Raise e) => (st', Raise e)
    end.

Definition raise {W A} (e : exn) : io W A := fun st => (st, Raise e).

(** [try: c  except Exception as e: handler(e)] *)
Definition try_except {W A} (c : io W A) (handler : exn -> io W A) : io W A :=
  fun st =>
    match c st with
    | (st', Ok a) => (st', Ok a)
    | (st', Raise e) => handler e st'
    end.

(** [try: c  finally: cleanup] *)
Definition try_finally {W A} (c : io W A) (cleanup : io W unit) : io W A :=
  fun st =>
    match c st with
    | (st', r) =>
        match cleanup st' with
        | (st'', Ok _) => (st'', r)
        | (st'', Raise e) => (st'', Raise e)
        end
    end.

Definition print {W} (line : Line) : io W unit :=
  fun st => ((fst st, snd st ++ [Print line]), Ok tt).

Definition record {W} (ev : Event) : io W unit :=
  fun st => ((fst st, snd st ++ [ev]), Ok tt).

(** A call into the outside world. *)
Definition call {W A} (op : W -> W * result A) : io W A :=
  fun st => let '(w', r) := op (fst st) in ((w', snd st), r).

(** A pure computation that may raise. *)
Definition lift {W A} (r : result A) : io W A := fun st => (st, r).

(** A computation that writes nothing to the trace. *)
Definition silent {W A} (c : io W A) : Prop :=
  forall st, snd (fst (c st)) = snd st.

(** The trace a computation produces when started in world [w]. *)
Definition trace_of {W A} (c : io W A) (w : W) : list Event := snd (fst (c (w, []))).

Definition outcome_of {W A} (c : io W A) (w : W) : result A := snd (c (w, [])).

End Io.

Declare Scope io_scope.
Delimit Scope io_scope with io.
Notation "x <- c ;; k" := (Io.bind c (fun x => k))
(at level 61, c at next level, right associativity) : io_scope.
Notation "c ;;; k" := (Io.bind c (fun _ => k))
(at level 61, right associativity) : io_scope.

(** ** The script's functions that talk to the page *)

Module Script.
Import Py Trace Io Text.
Local Open Scope string_scope.
Local Open Scope Z_scope.

Record Viewport : Type := mkViewport { vp_width : Z; vp_height : Z }.

Definition default_viewport : Viewport := {| vp_width := 1280; vp_height := 720 |}.

(** The JSON body of the notification: [{"msgtype": "text", "text": {"content": content}}]. *)
Record Payload : Type := mkPayload { msgtype : string; content : string }.

(** The collaborators of the script, over a state [W] of the outside world
    and a type [E] of page elements: the Selenium driver, [time], [datetime],
    Pillow's file operations and [requests].  A call returns the new world
    and either a value or the [Exception] it raised. *)
Record Driver (W E : Type) : Type := mkDriver {
  (* webdriver.Edge(...) with the options of [make_driver] *)
  new_driver : Viewport -> W -> W * result unit;
  (* driver.get(url) *)
  get : string -> W -> W * result unit;
  (* driver.refresh() *)
  refresh : W -> W * result unit;
  (* driver.quit() *)
  quit : W -> W * result unit;
  (* driver.find_element(By.CSS_SELECTOR, css) *)
  find_element : string -> W -> W * result E;
  (* el.text *)
  text : E -> W -> W * result (option string);
  (* el.get_attribute(name) *)
  get_attribute : E -> string -> W -> W * result (option string);
  (* WebDriverWait(driver, timeout).until(EC.element_to_be_clickable(css)).click() *)
  wait_and_click : Z -> string -> W -> W * result unit;
  (* Image.open(io.BytesIO(driver.get_screenshot_as_png())) *)
  screenshot : W -> W * result Region.Image;
  (* img.save(path) *)
  save : Region.Image -> string -> W -> W * result unit;
  (* time.sleep(seconds) *)
  sleep : Q -> W -> W;
  (* datetime.now(tz=UTC+8): the minute of the day, hour * 60 + minute *)
  now_beijing : W -> Z;
  (* requests.post(webhook, json=payload, timeout=10).raise_for_status() *)
  post : string -> Payload -> W -> W * result unit
}.

Definition HOME_LAT : string := "*".
Definition HOME_LON : string := "**".
Definition ZOOM : Z := 11.
Definition MODEL : string := "icon".
Definition FORECAST_MINUTES : Z := 15.
Definition STEP_SLEEP_SEC : Q := 8 # 10.

Definition HOUR_CSS : string := "div.panel.time.clock nav.clock-live div.hour div.text".
Definition MINUTE_CSS : string := "div.panel.time.clock nav.clock-live div.minute div.text".
Definition AMPM_CSS : string := "div.panel.time.clock nav.clock-live div.text.am-pm".
Definition NEXT_CSS : string :=
  "div.panel.time.clock nav.clock-live div.minute button.up[aria-label='下一个时间']".

Definition build_zoom_earth_url (lat lon : string) (zoom : Z) (model : string) : string :=
  "https://zoom.earth/maps/radar/#view=" ++ lat ++ "," ++ lon ++ ","
    ++ DecimalString.NilZero.string_of_int (Z.to_int zoom) ++ "z".

(** Lines 266-284 of [get_map_time_tuple]: from the stripped texts of the
    three clock elements to the 24-hour pair. *)
Definition clock_of_texts (hour_txt minute_txt ampm_txt : string) : result (option (Z * Z)) :=
  if is_empty hour_txt || is_empty minute_txt then Ok None
  else
    Py.bind (int hour_txt) (fun hour =>
    Py.bind (int minute_txt) (fun minute =>
      let hour :=
        if contains "下午" ampm_txt || contains "PM" (upper ampm_txt) then
          (if hour <? 12 then hour + 12 else hour)
        else if contains "上午" ampm_txt || contains "AM" (upper ampm_txt) then
          (if hour =? 12 then 0 else hour)
        else hour in
      Ok (Some (hour, minute)))).

Definition hhmm_ge (a b : Z * Z) : bool :=
  (fst a >? fst b) || ((fst a =? fst b) && (snd a >=? snd b)).

(** [target_dt.hour, target_dt.minute] for [now + minutes_ahead], where the
    sum stays in the range of [datetime].  An offset that leaves the range
    (years 1 to 9999) makes the script's addition raise [OverflowError]
    before anything is printed; the statements about [seek_with] therefore
    take [0 <= minutes_ahead < 1440], which covers the script's
    [FORECAST_MINUTES]. *)
Definition target_of (now_minute_of_day minutes_ahead : Z) : Z * Z :=
  let t := (now_minute_of_day + minutes_ahead) mod 1440 in
  (t / 60, t mod 60).

Section WithDriver.
Context {W E : Type}.
Variable driver : Driver W E.
Local Open Scope io_scope.

Definition time_sleep (seconds : Q) : io W unit :=
  call (fun w => (sleep driver seconds w, Ok tt)).

(** Lines 262-268 of [get_map_time_tuple]: the three clock elements are
    looked up, then their texts are read and stripped. *)
Definition read_clock_texts : io W (string * string * string) :=
  hour_el <- call (find_element driver HOUR_CSS) ;;
  minute_el <- call (find_element driver MINUTE_CSS) ;;
  ampm_el <- call (find_element driver AMPM_CSS) ;;
  hour_text <- call (text driver hour_el) ;;
  let hour_txt := strip (or_empty hour_text) in
  minute_text <- call (text driver minute_el) ;;
  let minute_txt := strip (or_empty minute_text) in
  ampm_text <- call (text driver ampm_el) ;;
  let ampm_txt := strip (or_empty ampm_text) in
  ret (hour_txt, minute_txt, ampm_txt).

Definition get_map_time_tuple : io W (option (Z * Z)) :=
  try_except
    (texts <- read_clock_texts ;;
     let '(hour_txt, minute_txt, ampm_txt) := texts in
     lift (clock_of_texts hour_txt minute_txt ampm_txt))
    (fun _ => ret None).

Definition click_next : io W string :=
  try_except
    (btn <- call (find_element driver NEXT_CSS) ;;
     disabled <- call (get_attribute driver btn "disabled") ;;
     match disabled with
     | Some _ => raise (NextButtonNotClickable "next minute button is disabled")
     | None => ret tt
     end)
    (fun e =>
       match e with
       | NextButtonNotClickable _ => raise e
       | _ => raise (NextButtonNotClickable "cannot find next minute button")
       end) ;;;
  try_except
    (call (wait_and_click driver 5 NEXT_CSS))
    (fun _ => raise (NextButtonNotClickable "next minute button not clickable")) ;;;
  time_sleep STEP_SLEEP_SEC ;;;
  ret "minute.up".

(** The [try: click_next ... except NextButtonNotClickable] of iteration [i]:
    [true] when the loop goes on, [false] when the function returns. *)
Definition try_click (i max_clicks : nat) : io W bool :=
  try_except
    (btn_name <- click_next ;;
     print (SeekClick btn_name (i + 1) max_clicks) ;;;
     ret true)
    (fun e =>
       match e with
       | NextButtonNotClickable _ => print (SeekBlocked e) ;;; ret false
       | _ => raise e
       end).

(** The [for i in range(max_clicks)] loop of [seek_to_target_time] with
    [remaining] iterations to go, followed by the warning after the loop. *)
Fixpoint seek_loop (target_hhmm : Z * Z) (max_clicks remaining : nat) : io W unit :=
  match remaining with
  | O => print SeekExhausted
  | S rest =>
      let i := (max_clicks - remaining)%nat in
      let advance :=
        more <- try_click i max_clicks ;;
        if more : bool then seek_loop target_hhmm max_clicks rest else ret tt in
      hhmm <- get_map_time_tuple ;;
      print (SeekCurrent hhmm) ;;;
      match hhmm with
      | Some now_hhmm =>
          if hhmm_ge now_hhmm target_hhmm then print (SeekReached now_hhmm target_hhmm)
          else advance
      | None => advance
      end
  end.

(** [seek_to_target_time] with the step budget as a parameter; the script
    fixes [max_clicks = 60].  The target is computed by [target_of], for an
    offset within its range. *)
Definition seek_with (max_clicks : nat) (minutes_ahead : Z) : io W unit :=
  now <- call (fun w => (w, Ok (now_beijing driver w))) ;;
  let target_hhmm := target_of now minutes_ahead in
  print (SeekTarget minutes_ahead target_hhmm) ;;;
  seek_loop target_hhmm max_clicks max_clicks.

Definition seek_to_target_time (minutes_ahead : Z) : io W unit :=
  seek_with 60 minutes_ahead.

Definition send_wecom_text (webhook content : string) : io W unit :=
  if is_empty webhook then print (WebhookEmpty content)
  else
    let payload := {| msgtype := "text"; content := content |} in
    record (HttpPost webhook content) ;;;
    call (post driver webhook payload).

(** Python's rendering of the debug line (number and tuple formatting). *)
Variable format_debug : DebugMsg -> string.

Definition newline : string := String (ascii_of_nat 10) EmptyString.

Definition RAIN_MARKER : string := "⚠️ 可能要下雨：你家附近检测到雷达回波色带覆盖。".

(** Lines 390-417 of [main]: from the screenshot to the result. *)
Definition sample_and_report (webhook url : string) (viewport : Viewport)
  (img : Region.Image) : io W unit :=
  let sample_xy := (vp_width viewport / 2, vp_height viewport / 2) in
  rgb <- lift (Region.avg_color img sample_xy 7) ;;
  let score := Color.rain_score rgb in
  cov <- lift (Region.rain_coverage img sample_xy 12) ;;
  let '(coverage, cov_dbg) := cov in
  let ok := Qle_bool (10 # 100) coverage in
  let debug_msg :=
    {| dbg_sample_xy := sample_xy;
       dbg_rgb := rgb;
       dbg_score := score;
       dbg_score_threshold := Color.RAIN_SCORE_THRESHOLD;
       dbg_s_threshold := Color.SATURATION_THRESHOLD;
       dbg_coverage := coverage;
       dbg_cov := cov_dbg |} in
  print (Debug debug_msg) ;;;
  print (Step "[6/6]") ;;;
  if ok then
    let msg := RAIN_MARKER ++ newline ++ format_debug debug_msg ++ newline ++ url in
    print ResultRainDetected ;;;
    print (Message msg) ;;;
    send_wecom_text webhook msg
  else
    print ResultNoRain ;;;
    print NoEchoFound.

(** The page-load retry loop of [main], [remaining] attempts to go. *)
Fixpoint load_page (url : string) (load_attempts remaining : nat) : io W unit :=
  match remaining with
  | O => ret tt
  | S rest =>
      let i := (load_attempts - remaining)%nat in
      loaded <- try_except
                  (call (get driver url) ;;; ret true)
                  (fun e =>
                     print (LoadFailed (i + 1) load_attempts e) ;;;
                     if (i <? load_attempts - 1)%nat then
                       print RetryIn3s ;;; time_sleep 3 ;;; ret false
                     else
                       print LoadGaveUp ;;; raise e) ;;
      if loaded : bool then ret tt else load_page url load_attempts rest
  end.

Definition main (webhook : string) : io W unit :=
  print ScriptVersion ;;;
  let viewport := default_viewport in
  let url := build_zoom_earth_url HOME_LAT HOME_LON ZOOM MODEL in
  print (Step "[1/6]") ;;;
  call (new_driver driver viewport) ;;;
  try_finally
    (try_except
       (print (Step "[2/6]") ;;;
        load_page url 3 3 ;;;
        print (Step "[2.5/6]") ;;;
        call (refresh driver) ;;;
        print (Step "[3/6]") ;;;
        time_sleep 8 ;;;
        seek_to_target_time FORECAST_MINUTES ;;;
        print (Step "[5/6]") ;;;
        img <- call (screenshot driver) ;;
        call (save driver img "screenshot.png") ;;;
        print (ScreenshotSaved "screenshot.png") ;;;
        sample_and_report webhook url viewport img)
       (fun e => print (ErrorLine e) ;;; raise e))
    (print Cleanup ;;; call (quit driver)).

End WithDriver.
(** The debug line of a run whose samplers returned [rgb], [coverage] and
    [info], and the message sent when rain is detected. *)
Definition debug_of (rgb : Color.RGB) (coverage : Q) (info : Region.CoverageInfo) : DebugMsg :=
  {| dbg_sample_xy := (640, 360);
     dbg_rgb := rgb;
     dbg_score := Color.rain_score rgb;
     dbg_score_threshold := Color.RAIN_SCORE_THRESHOLD;
     dbg_s_threshold := Color.SATURATION_THRESHOLD;
     dbg_coverage := coverage;
     dbg_cov := info |}.

Definition message_of (format_debug : DebugMsg -> string) (url : string) (d : DebugMsg) : string :=
  RAIN_MARKER ++ newline ++ format_debug d ++ newline ++ url.

(** *** Reading a trace *)

(** A forward step that was made, and one that was refused. *)
Definition is_click (ev : Event) : bool :=
  match ev with Print (SeekClick _ _ _) => true | _ => false end.

Definition is_blocked (ev : Event) : bool :=
  match ev with Print (SeekBlocked _) => true | _ => false end.

Definition successful_steps (tr : list Event) : nat := List.length (filter is_click tr).
Definition blocked_attempts (tr : list Event) : nat := List.length (filter is_blocked tr).
Definition advance_attempts (tr : list Event) : nat :=
  (successful_steps tr + blocked_attempts tr)%nat.

(** [if hhmm and hhmm_ge(hhmm, target_hhmm)] *)
Definition reached (hhmm : option (Z * Z)) (target_hhmm : Z * Z) : bool :=
  match hhmm with
  | Some now_hhmm => hhmm_ge now_hhmm target_hhmm
  | None => false
  end.

(** The output of the alignment loop with [remaining] iterations to go:
    it ends when the clock has reached the target, when a step is refused,
    or when no iteration is left. *)
Inductive loop_trace (target_hhmm : Z * Z) (max_clicks : nat) : nat -> list Event -> Prop :=
| loop_exhausted :
    loop_trace target_hhmm max_clicks 0 [Print SeekExhausted]
| loop_reached (remaining : nat) (now_hhmm : Z * Z) :
    hhmm_ge now_hhmm target_hhmm = true ->
    loop_trace target_hhmm max_clicks (S remaining)
      [Print (SeekCurrent (Some now_hhmm)); Print (SeekReached now_hhmm target_hhmm)]
| loop_blocked (remaining : nat) (hhmm : option (Z * Z)) (msg : string) :
    reached hhmm target_hhmm = false ->
    loop_trace target_hhmm max_clicks (S remaining)
      [Print (SeekCurrent hhmm); Print (SeekBlocked (Py.NextButtonNotClickable msg))]
| loop_step (remaining : nat) (hhmm : option (Z * Z)) (rest : list Event) :
    reached hhmm target_hhmm = false ->
    loop_trace target_hhmm max_clicks remaining rest ->
    loop_trace target_hhmm max_clicks (S remaining)
      (Print (SeekCurrent hhmm)
         :: Print (SeekClick "minute.up" (max_clicks - S remaining + 1) max_clicks)
         :: rest).

(** The displayed clock never reaches the target, whatever the state of the
    page; and the forward step is never refused. *)
Definition clock_never_reaches {W E} (driver : Driver W E) (target_hhmm : Z * Z) : Prop :=
  forall st,
    match snd (get_map_time_tuple driver st) with
    | Py.Ok hhmm => reached hhmm target_hhmm = false
    | Py.Raise _ => True
    end.

Definition step_never_blocked {W E} (driver : Driver W E) : Prop :=
  forall st, exists st' btn_name, click_next driver st = (st', Py.Ok btn_name).

(** *** The calls behind an advance attempt *)

(** The text of the blocked signal that [click_next] raises for an exception
    of its first [try] block. *)
Definition blocked_message (e : Py.exn) : string :=
  match e with
  | Py.NextButtonNotClickable msg => msg
  | _ => "cannot find next minute button"
  end.

(** A forward step that is made, from world [w] to world [w']: the button is
    found, its [disabled] attribute is absent, the click goes through, and
    the script sleeps [STEP_SLEEP_SEC]. *)
Definition step_made {W E} (driver : Driver W E) (w w' : W) : Prop :=
  exists w1 btn w2 w3,
    find_element driver NEXT_CSS w = (w1, Py.Ok btn) /\
    get_attribute driver btn "disabled" w1 = (w2, Py.Ok None) /\
    wait_and_click driver 5 NEXT_CSS w2 = (w3, Py.Ok tt) /\
    w' = sleep driver STEP_SLEEP_SEC w3.

(** A forward step that is refused with the blocked signal of text [msg]:
    by the call that fails, or by the [disabled] attribute. *)
Inductive step_refused {W E} (driver : Driver W E) : W -> W -> string -> Prop :=
| refused_no_button (w w' : W) (e : Py.exn) :
    find_element driver NEXT_CSS w = (w', Py.Raise e) ->
    step_refused driver w w' (blocked_message e)
| refused_no_attribute (w w1 w' : W) (btn : E) (e : Py.exn) :
    find_element driver NEXT_CSS w = (w1, Py.Ok btn) ->
    get_attribute driver btn "disabled" w1 = (w', Py.Raise e) ->
    step_refused driver w w' (blocked_message e)
| refused_disabled (w w1 w' : W) (btn : E) (value : string) :
    find_element driver NEXT_CSS w = (w1, Py.Ok btn) ->
    get_attribute driver btn "disabled" w1 = (w', Py.Ok (Some value)) ->
    step_refused driver w w' "next minute button is disabled"
| refused_not_clickable (w w1 w2 w' : W) (btn : E) (e : Py.exn) :
    find_element driver NEXT_CSS w = (w1, Py.Ok btn) ->
    get_attribute driver btn "disabled" w1 = (w2, Py.Ok None) ->
    wait_and_click driver 5 NEXT_CSS w2 = (w', Py.Raise e) ->
    step_refused driver w w' "next minute button not clickable".

(** A run of the alignment loop with [remaining] iterations to go, from
    state to state, by the calls it makes: each iteration reads the clock;
    a step that is counted in the output is a step made on the page, and
    the warning of a refused step follows a step the page refused. *)
Inductive loop_calls {W E} (driver : Driver W E) (target_hhmm : Z * Z) (max_clicks : nat) :
  nat -> W * list Event -> W * list Event -> Prop :=
| calls_exhausted (st : W * list Event) :
    loop_calls driver target_hhmm max_clicks 0 st
      (fst st, (snd st ++ [Print SeekExhausted])%list)
| calls_reached (remaining : nat) (st : W * list Event) (w1 : W) (now_hhmm : Z * Z) :
    get_map_time_tuple driver st = ((w1, snd st), Py.Ok (Some now_hhmm)) ->
    hhmm_ge now_hhmm target_hhmm = true ->
    loop_calls driver target_hhmm max_clicks (S remaining) st
      (w1, (snd st ++ [Print (SeekCurrent (Some now_hhmm));
                       Print (SeekReached now_hhmm target_hhmm)])%list)
| calls_blocked (remaining : nat) (st : W * list Event) (w1 w2 : W)
    (hhmm : option (Z * Z)) (msg : string) :
    get_map_time_tuple driver st = ((w1, snd st), Py.Ok hhmm) ->
    reached hhmm target_hhmm = false ->
    step_refused driver w1 w2 msg ->
    loop_calls driver target_hhmm max_clicks (S remaining) st
      (w2, (snd st ++ [Print (SeekCurrent hhmm);
                       Print (SeekBlocked (Py.NextButtonNotClickable msg))])%list)
| calls_step (remaining : nat) (st st' : W * list Event) (w1 w2 : W)
    (hhmm : option (Z * Z)) :
    get_map_time_tuple driver st = ((w1, snd st), Py.Ok hhmm) ->
    reached hhmm target_hhmm = false ->
    step_made driver w1 w2 ->
    loop_calls driver target_hhmm max_clicks remaining
      (w2, (snd st ++ [Print (SeekCurrent hhmm);
                       Print (SeekClick "minute.up" (max_clicks - S remaining + 1)%nat
                                        max_clicks)])%list)
      st' ->
    loop_calls driver target_hhmm max_clicks (S remaining) st st'.

(** The [TimeOfDay] invariant of the data model. *)
Definition valid_time_of_day (t : Z * Z) : Prop :=
  0 <= fst t <= 23 /\ 0 <= snd t <= 59.

(** The AM/PM markers of the specification, English or localized. *)
Definition has_pm_marker (ampm_txt : string) : bool :=
  contains "下午" ampm_txt || contains "PM" (upper ampm_txt).

Definition has_am_marker (ampm_txt : string) : bool :=
  contains "上午" ampm_txt || contains "AM" (upper ampm_txt).

End Script.

(** ** Stand-ins for the page and test screenshots *)

Module Stubs.
Import Py Trace Io Script.
Local Open Scope string_scope.

(** A page whose world is the number of times the forward button has been
    probed.  [clock] is what the three clock elements show ([None]: the
    elements are missing); the button is reported disabled on probe number
    [block_on] (counting from 1), and enabled on the others. *)
Definition page (clock : option (string * string * string)) (block_on : option nat)
  (now : Z) : Driver nat string :=
  {| new_driver := fun _ w => (w, Ok tt);
     get := fun _ w => (w, Ok tt);
     refresh := fun w => (w, Ok tt);
     quit := fun w => (w, Ok tt);
     find_element := fun css w =>
       match clock with
       | None => if String.eqb css NEXT_CSS then (w, Ok css)
                 else (w, Raise (WebDriverException "no such element"))
       | Some _ => (w, Ok css)
       end;
     text := fun el w =>
       match clock with
       | Some (h, m, a) =>
           (w, Ok (Some (if String.eqb el HOUR_CSS then h
                         else if String.eqb el MINUTE_CSS then m else a)))
       | None => (w, Raise (WebDriverException "stale element"))
       end;
     get_attribute := fun _ _ w =>
       (S w, Ok (match block_on with
                 | Some k => if Nat.eqb k (S w) then Some "true" else None
                 | None => None
                 end));
     wait_and_click := fun _ _ w => (w, Ok tt);
     screenshot := fun w => (w, Ok (Region.uniform 1280 720 Region.black));
     save := fun _ _ w => (w, Ok tt);
     sleep := fun _ w => w;
     now_beijing := fun _ => now;
     post := fun _ _ w => (w, Ok tt) |}.

(** The forward button is disabled on the third probe; the clock stays at
    10:00 AM while the target is 23:59. *)
Definition blocks_on_third : Driver nat string :=
  page (Some ("10", "00", "AM")) (Some 3%nat) (23 * 60 + 44).

(** The forward button always works and the clock never moves. *)
Definition never_reaches : Driver nat string :=
  page (Some ("10", "00", "AM")) None (23 * 60 + 44).

(** A page that fails every query with an error other than the blocked
    signal. *)
Definition broken : Driver nat string :=
  {| new_driver := fun _ w => (w, Ok tt);
     get := fun _ w => (w, Raise (WebDriverException "net::ERR_CONNECTION_CLOSED"));
     refresh := fun w => (w, Raise (WebDriverException "no session"));
     quit := fun w => (w, Ok tt);
     find_element := fun _ w => (w, Raise (WebDriverException "no such element"));
     text := fun _ w => (w, Raise (WebDriverException "stale element"));
     get_attribute := fun _ _ w => (w, Raise (WebDriverException "stale element"));
     wait_and_click := fun _ _ w => (w, Raise (WebDriverException "timeout"));
     screenshot := fun w => (w, Raise (WebDriverException "no session"));
     save := fun _ _ w => (w, Ok tt);
     sleep := fun _ w => w;
     now_beijing := fun _ => 0%Z;
     post := fun _ _ w => (w, Raise (HTTPError "503")) |}.


(** A rendering of the debug line that shows nothing of it. *)
Definition no_debug_text (d : DebugMsg) : string := "debug".

Definition blue_px : Region.Pixel := Region.px 0 0 255.
Definition yellow_px : Region.Pixel := Region.px 255 255 0.
Definition gray_px : Region.Pixel := Region.px 90 100 90.

(** A 648 x 720 screenshot: the sampled 20 x 25 region around (640, 360)
    has [cols * rows] pixels of colour [rain] in its upper left corner, the
    rest of the picture is [base]. *)
Definition patch (cols rows : Z) (rain base : Region.Pixel) : Region.Image :=
  {| Region.width := 648;
     Region.height := 720;
     Region.getpixel := fun x y =>
       if ((628 <=? x) && (x <? 628 + cols) && (348 <=? y) && (y <? 348 + rows))%Z
       then rain else base |}.

(** A two-pixel picture, one blue and one yellow pixel. *)
Definition blue_yellow : Region.Image :=
  {| Region.width := 2;
     Region.height := 1;
     Region.getpixel := fun x _ => if (x =? 0)%Z then blue_px else yellow_px |}.

End Stubs.

(** ** Further vocabulary for statements *)

Module Notions.
Import Py Trace Io Script.

(** The HSV triple of a pixel, when the conversion returns one. *)
Definition pixel_hsv (p : Region.Pixel) : option Color.HSV :=
  match Color.rgb_to_hsv_deg (Region.to_rgb p) with
  | Ok hsv => Some hsv
  | Raise _ => None
  end.

(** The HSV triple of the first pixel of a list that the classifier accepts. *)
Definition first_hit (pixels : list Region.Pixel) : option Color.HSV :=
  match find Region.pixel_is_rain pixels with
  | Some p => pixel_hsv p
  | None => None
  end.

(** The clamped box is inverted: [crop] refuses it. *)
Definition box_inverted (img : Region.Image) (center_xy : Z * Z) (radius : Z) : Prop :=
  (radius < 0
   \/ fst center_xy + radius < -1
   \/ Z.of_N (Region.width img) < fst center_xy - radius
   \/ snd center_xy + radius < -1
   \/ Z.of_N (Region.height img) < snd center_xy - radius)%Z.

(** The three ways the alignment loop ends, as lines of its output. *)
Definition is_reached (ev : Event) : bool :=
  match ev with Print (SeekReached _ _) => true | _ => false end.

Definition is_exhausted (ev : Event) : bool :=
  match ev with Print SeekExhausted => true | _ => false end.

Definition is_ending (ev : Event) : bool :=
  is_reached ev || is_blocked ev || is_exhausted ev.

(** The 24-hour value of a parsed hour under the marker text, as
    [clock_of_texts] computes it. *)
Definition hour_24 (h : Z) (ampm_txt : string) : Z :=
  if has_pm_marker ampm_txt then (if h <? 12 then h + 12 else h)%Z
  else if has_am_marker ampm_txt then (if h =? 12 then 0 else h)%Z
  else h.

(** Requests to the webhook among the events of a run. *)
Definition is_post (ev : Event) : bool :=
  match ev with HttpPost _ _ => true | _ => false end.

Definition posts (tr : list Event) : nat := List.length (filter is_post tr).

(** Consecutive loads of [url] that fail with the exceptions [es], each
    followed by the pause of three seconds, lead from world [w] to [w']. *)
Inductive failed_loads {W E} (driver : Driver W E) (url : string) :
  W -> list exn -> W -> Prop :=
| failed_none (w : W) :
    failed_loads driver url w [] w
| failed_again (w w1 w' : W) (e : exn) (es : list exn) :
    get driver url w = (w1, Raise e) ->
    failed_loads driver url (sleep driver 3 w1) es w' ->
    failed_loads driver url w (e :: es) w'.

(** The output for failed loads that are retried, the first of them being
    attempt number [i + 1] of [load_attempts]. *)
Fixpoint retry_lines (load_attempts i : nat) (es : list exn) : list Event :=
  match es with
  | [] => []
  | e :: rest =>
      Print (LoadFailed (i + 1) load_attempts e) :: Print RetryIn3s
        :: retry_lines load_attempts (S i) rest
  end.

End Notions.

(** * Properties *)

(** ** The colour classifier *)

Section ColorFacts.
Import Py Color.
Local Open Scope Q_scope.

Lemma Qlt_bool_true (a b : Q) : Qlt_bool a b = true <-> a < b.
Proof.
  unfold Qlt_bool. rewrite negb_true_iff. split.
  - intros H. apply Qnot_le_lt. intros Hle.
    apply Qle_bool_iff in Hle. congruence.
  - intros H. destruct (Qle_bool b a) eqn:Hle; [| reflexivity].
    apply Qle_bool_iff in Hle. exfalso. exact (Qlt_not_le _ _ H Hle).
Qed.

Lemma Qlt_bool_false (a b : Q) : Qlt_bool a b = false <-> b <= a.
Proof.
  unfold Qlt_bool. rewrite negb_false_iff. apply Qle_bool_iff.
Qed.

Lemma Qle_bool_false (a b : Q) : Qle_bool a b = false <-> b < a.
Proof.
  rewrite <- Qlt_bool_true. unfold Qlt_bool.
  destruct (Qle_bool a b); simpl; intuition congruence.
Qed.

(** One range of [hue_in_ranges] is tested as the specification words it. *)
Lemma range_test_spec (h a b : Q) :
  (if Qle_bool a b then Qle_bool a h && Qle_bool h b
   else Qle_bool a h || Qle_bool h b) = true
  <-> spec_range_matches h (a, b).
Proof.
  unfold spec_range_matches.
  destruct (Qle_bool a b) eqn:Hab.
  - apply Qle_bool_iff in Hab. rewrite andb_true_iff, !Qle_bool_iff. split.
    + intros [H1 H2]. left. auto.
    + intros [[_ [H1 H2]] | [Hlt _]]; [auto |].
      exfalso. exact (Qlt_not_le _ _ Hlt Hab).
  - apply Qle_bool_false in Hab. rewrite orb_true_iff, !Qle_bool_iff. split.
    + intros H. right. auto.
    + intros [[Hle _] | [_ H]]; [| exact H].
      exfalso. exact (Qlt_not_le _ _ Hab Hle).
Qed.

Lemma hue_in_ranges_spec (h : Q) (ranges : list (Q * Q)) :
  hue_in_ranges h ranges = true
  <-> exists range, In range ranges /\ spec_range_matches h range.
Proof.
  induction ranges as [| [a b] rest IH].
  - simpl. split; [discriminate | intros [r [[] _]]].
  - pose proof (range_test_spec h a b) as Hone.
    cbn [hue_in_ranges].
    destruct (Qle_bool a b); destruct (_ : bool) eqn:Htest in Hone |- *.
    all: split.
    all: try (intros _; exists (a, b); split; [left; reflexivity | apply Hone; reflexivity]).
    all: try reflexivity.
    all: try (intros H; apply IH in H; destruct H as [r [Hin Hr]];
              exists r; split; [right; exact Hin | exact Hr]).
    all: intros [r [[Heq | Hin] Hr]];
      [ subst r; apply Hone in Hr; discriminate
      | apply IH; exists r; split; assumption ].
Qed.

End ColorFacts.

Section ClassifierClaims.
Import Py Color.
Local Open Scope Q_scope.

Lemma is_rain_color_unfold (rgb : RGB) (h s v : Q) :
  rgb_to_hsv_deg rgb = Ok (h, s, v) ->
  is_rain_color rgb =
    if Qlt_bool s SATURATION_THRESHOLD then Ok (false, LowSaturation (h, s, v))
    else if negb (hue_in_ranges h HUE_RANGES_DEG) then Ok (false, HueOutside (h, s, v))
    else Ok (true, HueHit (h, s, v)).
Proof.
  intros Hhsv. unfold is_rain_color. rewrite Hhsv. reflexivity.
Qed.

(** C2.  A colour whose saturation reaches the threshold is classified as
    rain exactly when its hue lies in one of the configured ranges, a range
    being an inclusive interval or, with swapped bounds, the complement of a
    gap.  With the default ranges, hue 300 is accepted, hues 350 and 100 are
    rejected; so are colours with these hues. *)
Theorem is_rain_color_hue_ranges :
  (forall (rgb : RGB) (h s v : Q),
      rgb_to_hsv_deg rgb = Ok (h, s, v) ->
      SATURATION_THRESHOLD <= s ->
      exists ok reason,
        is_rain_color rgb = Ok (ok, reason) /\
        (ok = true <->
         exists range, In range HUE_RANGES_DEG /\ spec_range_matches h range))
  /\ (forall (h : Q) (ranges : list (Q * Q)),
         hue_in_ranges h ranges = true <->
         exists range, In range ranges /\ spec_range_matches h range)
  /\ hue_in_ranges 300 HUE_RANGES_DEG = true
  /\ hue_in_ranges 350 HUE_RANGES_DEG = false
  /\ hue_in_ranges 100 HUE_RANGES_DEG = false
  /\ (exists h s v, is_rain_color (255, 0, 255) = Ok (true, HueHit (h, s, v)) /\ h == 300)
  /\ (exists h s v, is_rain_color (252, 0, 42) = Ok (false, HueOutside (h, s, v)) /\ h == 350)
  /\ (exists h s v, is_rain_color (85, 255, 0) = Ok (false, HueOutside (h, s, v)) /\ h == 100).
Proof.
  split; [| split; [exact hue_in_ranges_spec |]].
  - intros rgb h s v Hhsv Hsat.
    rewrite (is_rain_color_unfold _ Hhsv).
    apply Qlt_bool_false in Hsat. rewrite Hsat.
    destruct (hue_in_ranges h HUE_RANGES_DEG) eqn:Hhue; cbn [negb].
    + exists true, (HueHit (h, s, v)). split; [reflexivity |].
      split; [intros _; apply hue_in_ranges_spec; exact Hhue | reflexivity].
    + exists false, (HueOutside (h, s, v)). split; [reflexivity |].
      split; [discriminate |].
      intros Hex. apply hue_in_ranges_spec in Hex. congruence.
  - repeat split; try reflexivity.
    all: do 3 eexists; split; [vm_compute; reflexivity | reflexivity].
Qed.

Lemma is_rain_color_hue_ranges_witness :
  exists h ok reason,
    is_rain_color (255, 0, 255) = Ok (ok, reason) /\
    (ok = true <->
     exists range, In range HUE_RANGES_DEG /\ spec_range_matches h range).
Proof.
  eexists.
  eapply (proj1 is_rain_color_hue_ranges (255, 0, 255)).
  - vm_compute. reflexivity.
  - vm_compute. discriminate.
Defined.

Lemma Qlt_bool_irrefl (x : Q) : Qlt_bool x x = false.
Proof. apply Qlt_bool_false. apply Qle_refl. Qed.

(** C3.  A colour whose saturation is below the threshold is never rain,
    whatever its hue; a grey ([r = g = b]) has saturation 0 and is turned
    down by the saturation test, before any hue range is looked at. *)
Theorem is_rain_color_low_saturation :
  (forall (rgb : RGB) (h s v : Q),
      rgb_to_hsv_deg rgb = Ok (h, s, v) ->
      s < SATURATION_THRESHOLD ->
      is_rain_color rgb = Ok (false, LowSaturation (h, s, v)))
  /\ (forall c : Q,
         exists h v,
           rgb_to_hsv_deg (c, c, c) = Ok (h, 0, v) /\
           is_rain_color (c, c, c) = Ok (false, LowSaturation (h, 0, v))).
Proof.
  split.
  - intros rgb h s v Hhsv Hsat.
    rewrite (is_rain_color_unfold _ Hhsv).
    apply Qlt_bool_true in Hsat. rewrite Hsat. reflexivity.
  - intros c.
    assert (Hhsv : rgb_to_hsv_deg (c, c, c) = Ok (0 * 360, 0, c / 255)).
    { unfold rgb_to_hsv_deg, rgb_to_hsv, max3, min3, max2, min2.
      rewrite !Qlt_bool_irrefl, Qeq_bool_refl. reflexivity. }
    exists (0 * 360), (c / 255). split; [exact Hhsv |].
    rewrite (is_rain_color_unfold _ Hhsv). reflexivity.
Qed.

Lemma is_rain_color_low_saturation_witness :
  exists h s v, is_rain_color (90, 100, 90) = Ok (false, LowSaturation (h, s, v)).
Proof.
  do 3 eexists.
  eapply (proj1 is_rain_color_low_saturation (90, 100, 90)).
  - vm_compute. reflexivity.
  - vm_compute. reflexivity.
Defined.

End ClassifierClaims.

(** ** The region sampler *)

Section RegionFacts.
Import Py Color Region.
Local Open Scope Q_scope.

Lemma max2_ge a b : a <= max2 a b /\ b <= max2 a b.
Proof.
  unfold max2. destruct (Qlt_bool a b) eqn:H.
  - apply Qlt_bool_true in H. lra.
  - apply Qlt_bool_false in H. lra.
Qed.

Lemma min2_le a b : min2 a b <= a /\ min2 a b <= b.
Proof.
  unfold min2. destruct (Qlt_bool b a) eqn:H.
  - apply Qlt_bool_true in H. lra.
  - apply Qlt_bool_false in H. lra.
Qed.

Lemma min2_glb a b c : c <= a -> c <= b -> c <= min2 a b.
Proof. unfold min2. destruct (Qlt_bool b a); auto. Qed.

Lemma rgb_to_hsv_total [r g b : Q] :
  0 <= r -> 0 <= g -> 0 <= b -> exists hsv, rgb_to_hsv r g b = Ok hsv.
Proof.
  intros Hr Hg Hb. unfold rgb_to_hsv.
  set (maxc := max3 r g b). set (minc := min3 r g b).
  assert (Hmax : r <= maxc).
  { unfold maxc, max3. pose proof (max2_ge r g). pose proof (max2_ge (max2 r g) b). lra. }
  assert (Hmin0 : 0 <= minc).
  { unfold minc, min3. apply min2_glb; [apply min2_glb |]; assumption. }
  assert (Hminr : minc <= r).
  { unfold minc, min3. pose proof (min2_le r g). pose proof (min2_le (min2 r g) b). lra. }
  destruct (Qeq_bool minc maxc) eqn:Heq; [eexists; reflexivity |].
  apply Qeq_bool_neq in Heq.
  assert (H1 : Qeq_bool maxc 0 = false).
  { destruct (Qeq_bool maxc 0) eqn:H0; [| reflexivity].
    apply Qeq_bool_eq in H0. exfalso. apply Heq. lra. }
  assert (H2 : Qeq_bool (maxc - minc) 0 = false).
  { destruct (Qeq_bool (maxc - minc) 0) eqn:H0; [| reflexivity].
    apply Qeq_bool_eq in H0. exfalso. apply Heq. lra. }
  unfold truediv. rewrite H1, H2. cbn [Py.bind]. eexists. reflexivity.
Qed.

Lemma channel_nonneg (c : Byte.byte) : 0 <= channel c.
Proof.
  unfold channel. change 0 with (inject_Z 0). rewrite <- Zle_Qle. lia.
Qed.

Lemma rgb_to_hsv_deg_pixel (p : Pixel) : exists hsv, rgb_to_hsv_deg (to_rgb p) = Ok hsv.
Proof.
  destruct p as [[r g] b]. unfold to_rgb, rgb_to_hsv_deg.
  assert (Hscaled : forall c, 0 <= channel c / 255).
  { intros c. apply Qle_shift_div_l; [reflexivity |].
    rewrite Qmult_0_l. apply channel_nonneg. }
  destruct (@rgb_to_hsv_total _ _ _ (Hscaled r) (Hscaled g) (Hscaled b)) as [[[h s] v] Hhsv].
  rewrite Hhsv. eexists. reflexivity.
Qed.

Lemma is_rain_color_pixel (p : Pixel) :
  exists reason, is_rain_color (to_rgb p) = Ok (pixel_is_rain p, reason).
Proof.
  unfold pixel_is_rain.
  destruct (rgb_to_hsv_deg_pixel p) as [[[h s] v] Hhsv].
  rewrite (is_rain_color_unfold _ Hhsv).
  destruct (Qlt_bool s SATURATION_THRESHOLD); [eexists; reflexivity |].
  destruct (negb (hue_in_ranges h HUE_RANGES_DEG)); eexists; reflexivity.
Qed.

Lemma hit_count_cons (p : Pixel) (pixels : list Pixel) :
  hit_count (p :: pixels) = ((if pixel_is_rain p then 1 else 0) + hit_count pixels)%Z.
Proof.
  unfold hit_count. simpl. destruct (pixel_is_rain p); simpl List.length; lia.
Qed.

Lemma rain_coverage_loop_counts (pixels : list Pixel) :
  forall (hit : Z) (sample_hsv : option HSV),
  exists sample', rain_coverage_loop pixels hit sample_hsv = Ok ((hit + hit_count pixels)%Z, sample').
Proof.
  induction pixels as [| p rest IH]; intros hit sample_hsv.
  - exists sample_hsv. unfold hit_count. simpl. rewrite Z.add_0_r. reflexivity.
  - cbn [rain_coverage_loop].
    destruct (is_rain_color_pixel p) as [reason Hp]. rewrite Hp. cbn [Py.bind].
    rewrite hit_count_cons.
    destruct (pixel_is_rain p).
    + rewrite Z.add_assoc.
      destruct sample_hsv as [hsv |]; [apply IH |].
      destruct (rgb_to_hsv_deg_pixel p) as [hsv Hhsv]. rewrite Hhsv. cbn [Py.bind].
      apply IH.
    + rewrite Z.add_0_l. apply IH.
Qed.

Lemma hit_count_bounds (pixels : list Pixel) : (0 <= hit_count pixels <= len pixels)%Z.
Proof.
  unfold hit_count, len. pose proof (filter_length_le pixel_is_rain pixels). lia.
Qed.

Lemma hit_count_all (pixels : list Pixel) :
  forallb pixel_is_rain pixels = true -> hit_count pixels = len pixels.
Proof.
  unfold hit_count, len. intros H. f_equal. f_equal.
  apply forallb_filter_id. exact H.
Qed.

Lemma hit_count_none (pixels : list Pixel) :
  forallb (fun p => negb (pixel_is_rain p)) pixels = true -> hit_count pixels = 0%Z.
Proof.
  unfold hit_count. induction pixels as [| p rest IH]; [reflexivity |].
  simpl. intros H. apply andb_true_iff in H. destruct H as [Hp Hrest].
  apply negb_true_iff in Hp. rewrite Hp. exact (IH Hrest).
Qed.

Lemma len_pos (p : Pixel) (rest : list Pixel) : (0 < len (p :: rest))%Z.
Proof. unfold len. simpl List.length. lia. Qed.

Lemma truediv_counts (hit total : Z) :
  (0 < total)%Z ->
  truediv (inject_Z hit) (inject_Z total) = Ok (inject_Z hit / inject_Z total).
Proof.
  intros Hpos. unfold truediv.
  destruct (Qeq_bool (inject_Z total) 0) eqn:Hz; [| reflexivity].
  apply Qeq_bool_eq in Hz. unfold Qeq in Hz. simpl in Hz. lia.
Qed.

Lemma ratio_bounds (hit total : Z) :
  (0 <= hit <= total)%Z -> (0 < total)%Z ->
  0 <= inject_Z hit / inject_Z total /\ inject_Z hit / inject_Z total <= 1.
Proof.
  intros [Hlo Hhi] Hpos.
  assert (Hq : 0 < inject_Z total).
  { change 0 with (inject_Z 0). rewrite <- Zlt_Qlt. exact Hpos. }
  split.
  - apply Qle_shift_div_l; [exact Hq |]. rewrite Qmult_0_l.
    change 0 with (inject_Z 0). rewrite <- Zle_Qle. exact Hlo.
  - apply Qle_shift_div_r; [exact Hq |]. rewrite Qmult_1_l.
    rewrite <- Zle_Qle. exact Hhi.
Qed.

Local Open Scope Z_scope.

Lemma In_zrange (lo hi x : Z) : In x (zrange lo hi) <-> lo <= x < hi.
Proof.
  unfold zrange. rewrite in_map_iff. split.
  - intros [i [Hx Hi]]. apply in_seq in Hi. lia.
  - intros Hx. exists (Z.to_nat (x - lo)). split; [lia |]. apply in_seq. lia.
Qed.

Lemma zrange_nil (lo hi : Z) : zrange lo hi = [] <-> hi <= lo.
Proof.
  unfold zrange. split.
  - intros H. apply map_eq_nil in H.
    destruct (Z.to_nat (hi - lo)) eqn:Hn; [lia | discriminate].
  - intros H. replace (Z.to_nat (hi - lo)) with 0%nat by lia. reflexivity.
Qed.

(** Every coordinate of the clamped box lies inside the image. *)
Lemma clamped_box_inside (img : Image) (cx cy radius x y : Z) :
  forall x0 y0 x1 y1,
    clamped_box img (cx, cy) radius = (x0, y0, x1, y1) ->
    In x (zrange x0 x1) -> In y (zrange y0 y1) -> inside img x y = true.
Proof.
  intros x0 y0 x1 y1 Hbox Hx Hy. unfold clamped_box in Hbox.
  injection Hbox as <- <- <- <-.
  apply In_zrange in Hx. apply In_zrange in Hy.
  unfold inside. rewrite !andb_true_iff.
  repeat split; first [apply Z.leb_le | apply Z.ltb_lt]; lia.
Qed.

(** The pixels a crop of the clamped box hands to the samplers are pixels
    of the image: no coordinate outside the image is read. *)
Lemma crop_clamped_reads_image (img : Image) (cx cy radius : Z) (region : Cropped) :
  crop img (clamped_box img (cx, cy) radius) = Ok region ->
  exists x0 y0 x1 y1,
    clamped_box img (cx, cy) radius = (x0, y0, x1, y1) /\
    0 <= x0 /\ 0 <= y0 /\ x1 <= Z.of_N (width img) /\ y1 <= Z.of_N (height img) /\
    size region = (x1 - x0, y1 - y0) /\
    data region =
      flat_map (fun y => map (fun x => getpixel img x y) (zrange x0 x1)) (zrange y0 y1).
Proof.
  destruct (clamped_box img (cx, cy) radius) as [[[x0 y0] x1] y1] eqn:Hbox.
  intros Hcrop. exists x0, y0, x1, y1. split; [reflexivity |].
  assert (Hb : 0 <= x0 /\ 0 <= y0 /\ x1 <= Z.of_N (width img) /\ y1 <= Z.of_N (height img)).
  { unfold clamped_box in Hbox. injection Hbox as <- <- <- <-. lia. }
  destruct Hb as (H1 & H2 & H3 & H4). do 4 (split; [assumption |]).
  unfold crop in Hcrop.
  destruct (x1 <? x0); [discriminate |]. destruct (y1 <? y0); [discriminate |].
  injection Hcrop as <-. split; [reflexivity |]. cbn [data].
  rewrite !flat_map_concat_map. f_equal.
  apply map_ext_in. intros y Hy. apply map_ext_in. intros x Hx.
  rewrite (@clamped_box_inside img cx cy radius x y _ _ _ _ Hbox Hx Hy). reflexivity.
Qed.

Local Open Scope Q_scope.

Lemma rain_coverage_sampled (img : Image) (center_xy : Z * Z) (radius : Z) (region : Cropped) :
  crop img (clamped_box img center_xy radius) = Ok region ->
  data region <> [] ->
  exists ratio sample,
    rain_coverage img center_xy radius =
      Ok (ratio, Sampled (size region) (hit_count (data region)) (len (data region))
                         ratio sample)
    /\ ratio = inject_Z (hit_count (data region)) / inject_Z (len (data region))
    /\ 0 <= ratio /\ ratio <= 1
    /\ (forallb pixel_is_rain (data region) = true -> ratio == 1)
    /\ (forallb (fun p => negb (pixel_is_rain p)) (data region) = true -> ratio == 0).
Proof.
  intros Hcrop Hne.
  unfold rain_coverage. rewrite Hcrop. cbn [Py.bind].
  destruct (data region) as [| p rest] eqn:Hdata; [congruence |].
  destruct (rain_coverage_loop_counts (p :: rest) 0 None) as [sample Hloop].
  rewrite Hloop. cbn [Py.bind]. rewrite Z.add_0_l.
  rewrite truediv_counts by apply len_pos. cbn [Py.bind].
  pose proof (hit_count_bounds (p :: rest)) as Hb.
  pose proof (len_pos p rest) as Hpos.
  destruct (@ratio_bounds _ _ Hb Hpos) as [Hlo Hhi].
  eexists. exists sample. split; [reflexivity |].
  split; [reflexivity |]. split; [exact Hlo |]. split; [exact Hhi |]. split.
  - intros Hall. rewrite hit_count_all by exact Hall.
    apply Qmult_inv_r. intros Hz. unfold Qeq in Hz. simpl in Hz. lia.
  - intros Hnone. rewrite hit_count_none by exact Hnone. unfold Qdiv. apply Qmult_0_l.
Qed.

(** C6.  On a non-empty clamped region [rain_coverage] returns
    [hitCount / totalCount], where [hitCount] counts the pixels that
    [is_rain_color] accepts one by one; the ratio lies in [0, 1], is 1 when
    every pixel is accepted and 0 when none is.  The verdict on the averaged
    colour plays no part: a region of one blue and one yellow pixel has
    ratio 1 although its average, a grey, is not a rain colour. *)
Theorem rain_coverage_ratio :
  (forall (img : Image) (center_xy : Z * Z) (radius : Z) (region : Cropped),
      crop img (clamped_box img center_xy radius) = Ok region ->
      data region <> [] ->
      exists ratio sample,
        rain_coverage img center_xy radius =
          Ok (ratio, Sampled (size region) (hit_count (data region)) (len (data region))
                             ratio sample)
        /\ ratio = inject_Z (hit_count (data region)) / inject_Z (len (data region))
        /\ 0 <= ratio /\ ratio <= 1
        /\ (forallb pixel_is_rain (data region) = true -> ratio == 1)
        /\ (forallb (fun p => negb (pixel_is_rain p)) (data region) = true -> ratio == 0))
  /\ (forall p : Pixel,
         exists reason, is_rain_color (to_rgb p) = Ok (pixel_is_rain p, reason))
  /\ (exists ratio info,
         rain_coverage Stubs.blue_yellow (0, 0)%Z 1 = Ok (ratio, info) /\ ratio == 1)
  /\ (exists rgb reason,
         avg_color Stubs.blue_yellow (0, 0)%Z 1 = Ok rgb /\
         is_rain_color rgb = Ok (false, reason)).
Proof.
  split; [exact rain_coverage_sampled |].
  split; [exact is_rain_color_pixel | split].
  - do 2 eexists. split; [vm_compute; reflexivity | reflexivity].
  - do 2 eexists. split; vm_compute; reflexivity.
Qed.

Lemma rain_coverage_ratio_witness :
  exists region ratio sample,
    rain_coverage (uniform 10 10 Stubs.blue_px) (5, 5)%Z 1 =
      Ok (ratio, Sampled (size region) (hit_count (data region)) (len (data region))
                         ratio sample)
    /\ ratio = inject_Z (hit_count (data region)) / inject_Z (len (data region))
    /\ 0 <= ratio /\ ratio <= 1
    /\ (forallb pixel_is_rain (data region) = true -> ratio == 1)
    /\ (forallb (fun p => negb (pixel_is_rain p)) (data region) = true -> ratio == 0).
Proof.
  eexists.
  eapply (proj1 rain_coverage_ratio (uniform 10 10 Stubs.blue_px) (5, 5)%Z 1%Z).
  - reflexivity.
  - simpl. discriminate.
Defined.

(** What [rain_coverage] does for every image, centre and radius: it raises
    exactly when the clamped box is inverted, returns ratio 0 with the reason
    "empty region" on a box without pixels, and a ratio in [0, 1] otherwise. *)
Lemma rain_coverage_cases (img : Image) (center_xy : Z * Z) (radius : Z) :
  forall x0 y0 x1 y1,
    clamped_box img center_xy radius = (x0, y0, x1, y1) ->
    ((x1 < x0)%Z ->
       rain_coverage img center_xy radius =
         Raise (ValueError "Coordinate 'right' is less than 'left'"))
    /\ ((x0 <= x1)%Z -> (y1 < y0)%Z ->
          rain_coverage img center_xy radius =
            Raise (ValueError "Coordinate 'lower' is less than 'upper'"))
    /\ ((x0 <= x1)%Z -> (y0 <= y1)%Z -> (x0 = x1 \/ y0 = y1) ->
          rain_coverage img center_xy radius = Ok (0, EmptyRegion))
    /\ ((x0 < x1)%Z -> (y0 < y1)%Z ->
          exists ratio info,
            rain_coverage img center_xy radius = Ok (ratio, info) /\
            0 <= ratio /\ ratio <= 1).
Proof.
  intros x0 y0 x1 y1 Hbox.
  assert (Hcrop : crop img (clamped_box img center_xy radius) =
                  if (x1 <? x0)%Z then Raise (ValueError "Coordinate 'right' is less than 'left'")
                  else if (y1 <? y0)%Z
                       then Raise (ValueError "Coordinate 'lower' is less than 'upper'")
                       else Ok {| size := ((x1 - x0)%Z, (y1 - y0)%Z);
                                  data := flat_map
                                    (fun y => map (fun x => if inside img x y
                                                            then getpixel img x y else black)
                                                  (zrange x0 x1))
                                    (zrange y0 y1) |}).
  { rewrite Hbox. reflexivity. }
  repeat split.
  - intros Hx. unfold rain_coverage. rewrite Hcrop.
    apply Z.ltb_lt in Hx. rewrite Hx. reflexivity.
  - intros Hx Hy. unfold rain_coverage. rewrite Hcrop.
    apply Z.ltb_ge in Hx. apply Z.ltb_lt in Hy. rewrite Hx, Hy. reflexivity.
  - intros Hx Hy Hzero. unfold rain_coverage. rewrite Hcrop.
    apply Z.ltb_ge in Hx. apply Z.ltb_ge in Hy. rewrite Hx, Hy. cbn [Py.bind data].
    destruct Hzero as [-> | ->].
    + replace (zrange x1 x1) with (@nil Z) by (symmetry; apply zrange_nil; lia).
      cbn [map].
      assert (Hnil : forall l : list Z, flat_map (fun _ => @nil Pixel) l = [])
        by (intros l; induction l; auto).
      rewrite Hnil. reflexivity.
    + replace (zrange y1 y1) with (@nil Z) by (symmetry; apply zrange_nil; lia).
      reflexivity.
  - intros Hx Hy.
    assert (Hx' : (x1 <? x0)%Z = false) by (apply Z.ltb_ge; lia).
    assert (Hy' : (y1 <? y0)%Z = false) by (apply Z.ltb_ge; lia).
    rewrite Hx', Hy' in Hcrop.
    edestruct (@rain_coverage_sampled _ _ _ _ Hcrop)
      as (ratio & sample & Hrun & _ & Hlo & Hhi & _).
    { cbn [data].
      destruct (zrange y0 y1) as [| y ys] eqn:Hys; [apply zrange_nil in Hys; lia |].
      destruct (zrange x0 x1) as [| x xs] eqn:Hxs; [apply zrange_nil in Hxs; lia |].
      discriminate. }
    eexists. eexists. split; [exact Hrun |]. split; assumption.
Qed.

(** C7.  The clamped box never reaches outside the image, but when the
    centre lies further than [radius] beyond the right or lower edge (or the
    radius is negative) the box is inverted and [crop] refuses it:
    [rain_coverage] raises [ValueError] instead of returning ratio 0 with the
    reason "empty region".  On a 10 x 10 image with centre (100, 100) and
    radius 12 the box is (88, 88, 10, 10). *)
Theorem rain_coverage_center_outside_image :
  clamped_box (uniform 10 10 Stubs.blue_px) (100, 100)%Z 12 = (88, 88, 10, 10)%Z
  /\ rain_coverage (uniform 10 10 Stubs.blue_px) (100, 100)%Z 12 =
       Raise (ValueError "Coordinate 'right' is less than 'left'")
  /\ rain_coverage (uniform 0 0 Stubs.blue_px) (640, 360)%Z 12 =
       Raise (ValueError "Coordinate 'right' is less than 'left'")
  /\ rain_coverage (uniform 10 10 Stubs.blue_px) (22, 5)%Z 12 = Ok (0, EmptyRegion).
Proof.
  repeat split; reflexivity.
Qed.

Lemma sum_len_truediv (f : Pixel -> Z) (p : Pixel) (rest : list Pixel) :
  truediv (inject_Z (sum_of f (p :: rest))) (inject_Z (len (p :: rest))) =
    Ok (inject_Z (sum_of f (p :: rest)) / inject_Z (len (p :: rest))).
Proof. apply truediv_counts. apply len_pos. Qed.

(** What [avg_color] does for every image, centre and radius. *)
Lemma avg_color_cases (img : Image) (center_xy : Z * Z) (radius : Z) :
  forall x0 y0 x1 y1,
    clamped_box img center_xy radius = (x0, y0, x1, y1) ->
    ((x1 < x0)%Z ->
       avg_color img center_xy radius =
         Raise (ValueError "Coordinate 'right' is less than 'left'"))
    /\ ((x0 <= x1)%Z -> (y1 < y0)%Z ->
          avg_color img center_xy radius =
            Raise (ValueError "Coordinate 'lower' is less than 'upper'"))
    /\ ((x0 <= x1)%Z -> (y0 <= y1)%Z -> (x0 = x1 \/ y0 = y1) ->
          avg_color img center_xy radius = Ok (0, 0, 0))
    /\ ((x0 < x1)%Z -> (y0 < y1)%Z ->
          exists rgb, avg_color img center_xy radius = Ok rgb).
Proof.
  intros x0 y0 x1 y1 Hbox. unfold avg_color. rewrite Hbox. unfold crop.
  repeat split.
  - intros Hx. apply Z.ltb_lt in Hx. rewrite Hx. reflexivity.
  - intros Hx Hy. apply Z.ltb_ge in Hx. apply Z.ltb_lt in Hy. rewrite Hx, Hy. reflexivity.
  - intros Hx Hy Hzero.
    apply Z.ltb_ge in Hx. apply Z.ltb_ge in Hy. rewrite Hx, Hy. cbn [Py.bind data].
    destruct Hzero as [-> | ->].
    + replace (zrange x1 x1) with (@nil Z) by (symmetry; apply zrange_nil; lia).
      cbn [map].
      assert (Hnil : forall l : list Z, flat_map (fun _ => @nil Pixel) l = [])
        by (intros l; induction l; auto).
      rewrite Hnil. reflexivity.
    + replace (zrange y1 y1) with (@nil Z) by (symmetry; apply zrange_nil; lia).
      reflexivity.
  - intros Hx Hy.
    assert (Hx' : (x1 <? x0)%Z = false) by (apply Z.ltb_ge; lia).
    assert (Hy' : (y1 <? y0)%Z = false) by (apply Z.ltb_ge; lia).
    rewrite Hx', Hy'. cbn [Py.bind data].
    destruct (flat_map _ _) as [| p rest]; [eexists; reflexivity |].
    rewrite !sum_len_truediv. cbn [Py.bind]. eexists. reflexivity.
Qed.

(** C10.  [avg_color] returns (0, 0, 0) on a clamped region without pixels
    only when the box has zero width or height; a centre further than
    [radius] outside the image gives an inverted box and [ValueError].  On a
    10 x 10 image, centre (100, 100) with radius 6 raises, while centre
    (16, 5) with radius 6, whose box (10, 0, 10, 10) is empty, returns
    (0, 0, 0). *)
Theorem avg_color_center_outside_image :
  clamped_box (uniform 10 10 Stubs.blue_px) (100, 100)%Z 6 = (94, 94, 10, 10)%Z
  /\ avg_color (uniform 10 10 Stubs.blue_px) (100, 100)%Z 6 =
       Raise (ValueError "Coordinate 'right' is less than 'left'")
  /\ avg_color (uniform 10 10 Stubs.blue_px) (16, 5)%Z 6 = Ok (0, 0, 0).
Proof.
  repeat split; reflexivity.
Qed.

End RegionFacts.

(** ** The alignment loop *)

Section AlignmentFacts.
Import Py Trace Io Script.
Context {W E : Type}.
Variable driver : Driver W E.

Lemma silent_ret A (a : A) : silent (@ret W A a).
Proof. intros st. reflexivity. Qed.

Lemma silent_raise A (e : exn) : silent (@raise W A e).
Proof. intros st. reflexivity. Qed.

Lemma silent_lift A (r : result A) : silent (@lift W A r).
Proof. intros st. reflexivity. Qed.

Lemma silent_call A (op : W -> W * result A) : silent (call op).
Proof. intros st. unfold call. destruct (op (fst st)). reflexivity. Qed.

Lemma silent_bind A B (c : io W A) (k : A -> io W B) :
  silent c -> (forall a, silent (k a)) -> silent (Io.bind c k).
Proof.
  intros Hc Hk st. unfold Io.bind. specialize (Hc st).
  destruct (c st) as [st' [a | e]]; simpl in *; [| exact Hc].
  rewrite Hk. exact Hc.
Qed.

Lemma silent_try_except A (c : io W A) (handler : exn -> io W A) :
  silent c -> (forall e, silent (handler e)) -> silent (try_except c handler).
Proof.
  intros Hc Hh st. unfold try_except. specialize (Hc st).
  destruct (c st) as [st' [a | e]]; simpl in *; [exact Hc |].
  rewrite Hh. exact Hc.
Qed.

Create HintDb silent.
#[local] Hint Resolve silent_ret silent_raise silent_lift silent_call : silent.

Lemma silent_read_clock_texts : silent (read_clock_texts driver).
Proof.
  unfold read_clock_texts.
  repeat (apply silent_bind; [auto with silent | intros ?]).
  auto with silent.
Qed.

Lemma silent_get_map_time_tuple : silent (get_map_time_tuple driver).
Proof.
  unfold get_map_time_tuple. apply silent_try_except; [| auto with silent].
  apply silent_bind; [apply silent_read_clock_texts |].
  intros [[? ?] ?]. auto with silent.
Qed.

(** Reading the clock never raises. *)
Lemma get_map_time_tuple_returns (st : W * list Event) :
  exists w' hhmm, get_map_time_tuple driver st = ((w', snd st), Ok hhmm).
Proof.
  pose proof (silent_get_map_time_tuple st) as Hlog.
  unfold get_map_time_tuple, try_except in *.
  destruct (Io.bind _ _ st) as [[w' log'] [hhmm | e]]; simpl in *; subst log'.
  - exists w', hhmm. reflexivity.
  - exists w', None. reflexivity.
Qed.

Lemma silent_click_next : silent (click_next driver).
Proof.
  unfold click_next, time_sleep.
  apply silent_bind; [| intros _; apply silent_bind; [| intros _; apply silent_bind]].
  - apply silent_try_except.
    + apply silent_bind; [auto with silent | intros btn].
      apply silent_bind; [auto with silent | intros [d |]]; auto with silent.
    + intros []; auto with silent.
  - apply silent_try_except; auto with silent.
  - auto with silent.
  - auto with silent.
Qed.

(** The only exception [click_next] lets out is the blocked signal. *)
Lemma click_next_outcome (st : W * list Event) :
  exists w',
    click_next driver st = ((w', snd st), Ok "minute.up"%string) \/
    exists msg, click_next driver st = ((w', snd st), Raise (NextButtonNotClickable msg)).
Proof.
  pose proof (silent_click_next st) as Hlog.
  destruct (click_next driver st) as [[w' log'] r] eqn:Hrun. simpl in Hlog. subst log'.
  exists w'.
  revert Hrun. unfold click_next, Io.bind, try_except, call, raise, ret, time_sleep.
  destruct (find_element driver NEXT_CSS (fst st)) as [w1 [btn | e1]]; cbn.
  - destruct (get_attribute driver btn "disabled" w1) as [w2 [[d |] | e2]]; cbn.
    + intros H; injection H as <- <-. right. eexists. reflexivity.
    + destruct (wait_and_click driver 5 NEXT_CSS w2) as [w3 [[] | e3]]; cbn.
      * intros H; injection H as <- <-. left. reflexivity.
      * intros H; injection H as <- <-. right. eexists. reflexivity.
    + destruct e2; cbn; intros H; injection H as <- <-; right; eexists; reflexivity.
  - destruct e1; cbn; intros H; injection H as <- <-; right; eexists; reflexivity.
Qed.

(** One iteration of the loop, by what the clock shows and what the step does. *)
Lemma seek_loop_iteration (target_hhmm : Z * Z) (max_clicks rest : nat) (st : W * list Event) :
  exists w1 hhmm,
    get_map_time_tuple driver st = ((w1, snd st), Ok hhmm) /\
    (reached hhmm target_hhmm = true ->
       exists now_hhmm,
         hhmm = Some now_hhmm /\ hhmm_ge now_hhmm target_hhmm = true /\
         seek_loop driver target_hhmm max_clicks (S rest) st =
           ((w1, snd st ++ [Print (SeekCurrent hhmm); Print (SeekReached now_hhmm target_hhmm)]),
            Ok tt)) /\
    (reached hhmm target_hhmm = false ->
       exists w2,
         (click_next driver (w1, snd st ++ [Print (SeekCurrent hhmm)]) =
            ((w2, snd st ++ [Print (SeekCurrent hhmm)]), Ok "minute.up"%string) /\
          seek_loop driver target_hhmm max_clicks (S rest) st =
            seek_loop driver target_hhmm max_clicks rest
              (w2, snd st ++ [Print (SeekCurrent hhmm);
                              Print (SeekClick "minute.up" (max_clicks - S rest + 1) max_clicks)]))
         \/
         (exists msg,
            click_next driver (w1, snd st ++ [Print (SeekCurrent hhmm)]) =
              ((w2, snd st ++ [Print (SeekCurrent hhmm)]),
               Raise (NextButtonNotClickable msg)) /\
            seek_loop driver target_hhmm max_clicks (S rest) st =
              ((w2, snd st ++ [Print (SeekCurrent hhmm);
                               Print (SeekBlocked (NextButtonNotClickable msg))]),
               Ok tt))).
Proof.
  destruct (get_map_time_tuple_returns st) as (w1 & hhmm & Hclock).
  exists w1, hhmm. split; [exact Hclock |].
  assert (Hadvance :
    exists w2,
      (click_next driver (w1, snd st ++ [Print (SeekCurrent hhmm)]) =
         ((w2, snd st ++ [Print (SeekCurrent hhmm)]), Ok "minute.up"%string) /\
       Io.bind (try_click driver (max_clicks - S rest) max_clicks)
         (fun more : bool =>
            if more then seek_loop driver target_hhmm max_clicks rest else ret tt)
         (w1, snd st ++ [Print (SeekCurrent hhmm)]) =
       seek_loop driver target_hhmm max_clicks rest
         (w2, snd st ++ [Print (SeekCurrent hhmm);
                         Print (SeekClick "minute.up" (max_clicks - S rest + 1) max_clicks)]))
      \/
      (exists msg,
         click_next driver (w1, snd st ++ [Print (SeekCurrent hhmm)]) =
           ((w2, snd st ++ [Print (SeekCurrent hhmm)]), Raise (NextButtonNotClickable msg)) /\
         Io.bind (try_click driver (max_clicks - S rest) max_clicks)
           (fun more : bool =>
              if more then seek_loop driver target_hhmm max_clicks rest else ret tt)
           (w1, snd st ++ [Print (SeekCurrent hhmm)]) =
         ((w2, snd st ++ [Print (SeekCurrent hhmm);
                          Print (SeekBlocked (NextButtonNotClickable msg))]),
          Ok tt))).
  { destruct (click_next_outcome (w1, snd st ++ [Print (SeekCurrent hhmm)]))
      as [w2 [Hok | [msg Hblocked]]]; cbn [snd] in *; exists w2.
    - left. split; [exact Hok |].
      unfold Io.bind at 1, try_click, try_except, Io.bind at 1. rewrite Hok.
      cbn. rewrite <- app_assoc. reflexivity.
    - right. exists msg. split; [exact Hblocked |].
      unfold Io.bind at 1, try_click, try_except, Io.bind at 1. rewrite Hblocked.
      cbn. rewrite <- app_assoc. reflexivity. }
  split.
  - intros Hreached. destruct hhmm as [now_hhmm |]; [| discriminate].
    exists now_hhmm. split; [reflexivity |]. split; [exact Hreached |].
    cbn [seek_loop]. unfold Io.bind at 1. rewrite Hclock.
    cbn in Hreached. cbn. rewrite Hreached. unfold print. cbn [fst snd].
    rewrite <- app_assoc. reflexivity.
  - intros Hnot. destruct Hadvance as [w2 Hadvance]. exists w2.
    assert (Hunfold :
      seek_loop driver target_hhmm max_clicks (S rest) st =
      Io.bind (try_click driver (max_clicks - S rest) max_clicks)
        (fun more : bool =>
           if more then seek_loop driver target_hhmm max_clicks rest else ret tt)
        (w1, snd st ++ [Print (SeekCurrent hhmm)])).
    { cbn [seek_loop]. unfold Io.bind at 1. rewrite Hclock.
      unfold Io.bind at 1. cbn [print fst snd].
      destruct hhmm as [now_hhmm |]; [| reflexivity].
      cbn in Hnot. rewrite Hnot. reflexivity. }
    rewrite Hunfold. exact Hadvance.
Qed.

(** The loop returns, and its output is a [loop_trace]. *)
Lemma seek_loop_runs (target_hhmm : Z * Z) (max_clicks remaining : nat) :
  forall st : W * list Event,
  exists w' out,
    seek_loop driver target_hhmm max_clicks remaining st = ((w', snd st ++ out), Ok tt) /\
    loop_trace target_hhmm max_clicks remaining out.
Proof.
  induction remaining as [| rest IH]; intros st.
  - exists (fst st), [Print SeekExhausted]. split; [reflexivity | constructor].
  - destruct (seek_loop_iteration target_hhmm max_clicks rest st)
      as (w1 & hhmm & _ & Hyes & Hno).
    destruct (reached hhmm target_hhmm) eqn:Hreached.
    + destruct (Hyes eq_refl) as (now_hhmm & -> & Hge & Hrun).
      exists w1. eexists. split; [exact Hrun |]. apply loop_reached. exact Hge.
    + destruct (Hno eq_refl) as [w2 [[_ Hrun] | [msg [_ Hrun]]]].
      * destruct (IH (w2, snd st ++ [Print (SeekCurrent hhmm);
                                     Print (SeekClick "minute.up" (max_clicks - S rest + 1)
                                                      max_clicks)]))
          as (w' & out & Hrest & Htrace).
        cbn [snd] in Hrest. rewrite <- app_assoc in Hrest.
        exists w'. eexists. split; [rewrite Hrun; exact Hrest |].
        apply loop_step; assumption.
      * exists w2. eexists. split; [exact Hrun |]. apply loop_blocked. exact Hreached.
Qed.

Lemma loop_trace_attempts (target_hhmm : Z * Z) (max_clicks remaining : nat) (out : list Event) :
  loop_trace target_hhmm max_clicks remaining out ->
  (advance_attempts out <= remaining)%nat /\ (blocked_attempts out <= 1)%nat.
Proof.
  unfold advance_attempts, successful_steps, blocked_attempts.
  induction 1 as [| k now Hge | k hhmm msg Hnot | k hhmm rest Hnot Hrest IH]; cbn; lia.
Qed.

(** A refused step is the last thing the loop does. *)
Lemma loop_trace_blocked_last (target_hhmm : Z * Z) (max_clicks remaining : nat)
  (out : list Event) :
  loop_trace target_hhmm max_clicks remaining out ->
  forall before e after, out = before ++ Print (SeekBlocked e) :: after -> after = [].
Proof.
  induction 1 as [| k now Hge | k hhmm msg Hnot | k hhmm rest Hnot Hrest IH];
    intros before e after Heq.
  - destruct before as [| x [| y before]]; discriminate.
  - destruct before as [| x [| y [| z before]]]; discriminate.
  - destruct before as [| x [| y [| z before]]]; try discriminate.
    injection Heq as _ _ Hafter. symmetry. exact Hafter.
  - destruct before as [| x [| y before]]; try discriminate.
    injection Heq as _ _ Hrest'. exact (IH _ _ _ Hrest').
Qed.

(** With a clock that never reaches the target and a step that is never
    refused, every iteration of the budget makes a step. *)
Lemma seek_loop_exhausts (target_hhmm : Z * Z) (max_clicks remaining : nat) :
  clock_never_reaches driver target_hhmm ->
  step_never_blocked driver ->
  forall st : W * list Event,
  exists w' out,
    seek_loop driver target_hhmm max_clicks remaining st = ((w', snd st ++ out), Ok tt) /\
    successful_steps out = remaining /\ blocked_attempts out = 0%nat.
Proof.
  intros Hclock Hstep. induction remaining as [| rest IH]; intros st.
  - exists (fst st), [Print SeekExhausted]. repeat split; reflexivity.
  - destruct (seek_loop_iteration target_hhmm max_clicks rest st)
      as (w1 & hhmm & Hread & _ & Hno).
    assert (Hnot : reached hhmm target_hhmm = false).
    { specialize (Hclock st). rewrite Hread in Hclock. exact Hclock. }
    destruct (Hno Hnot) as [w2 [[_ Hrun] | [msg [Hblocked _]]]].
    + destruct (IH (w2, snd st ++ [Print (SeekCurrent hhmm);
                                   Print (SeekClick "minute.up" (max_clicks - S rest + 1)
                                                    max_clicks)]))
        as (w' & out & Hrest & Hsteps & Hnone).
      cbn [snd] in Hrest. rewrite <- app_assoc in Hrest.
      exists w'. eexists. split; [rewrite Hrun; exact Hrest |].
      unfold successful_steps, blocked_attempts in *. cbn. split; [lia | exact Hnone].
    + destruct (Hstep (w1, snd st ++ [Print (SeekCurrent hhmm)])) as (st' & name & Hok).
      rewrite Hok in Hblocked. discriminate.
Qed.

(** An advance attempt is a step made on the page or a step the page
    refused. *)
Lemma click_next_calls (st : W * list Event) :
  exists w',
    (click_next driver st = ((w', snd st), Ok "minute.up"%string) /\
     step_made driver (fst st) w') \/
    (exists msg,
       click_next driver st = ((w', snd st), Raise (NextButtonNotClickable msg)) /\
       step_refused driver (fst st) w' msg).
Proof.
  unfold click_next, Io.bind, try_except, call, raise, ret, time_sleep. cbv beta.
  destruct (find_element driver NEXT_CSS (fst st)) as [w1 [btn | e1]] eqn:Hfind; cbn.
  - destruct (get_attribute driver btn "disabled" w1) as [w2 [[d |] | e2]] eqn:Hattr; cbn.
    + exists w2. right. eexists. split; [reflexivity |].
      eapply refused_disabled; eassumption.
    + destruct (wait_and_click driver 5 NEXT_CSS w2) as [w3 [[] | e3]] eqn:Hclick; cbn.
      * exists (sleep driver STEP_SLEEP_SEC w3). left. split; [reflexivity |].
        exists w1, btn, w2, w3. repeat split; assumption.
      * exists w3. right. eexists. split; [reflexivity |].
        eapply refused_not_clickable; eassumption.
    + exists w2. right. exists (blocked_message e2). split.
      * destruct e2; reflexivity.
      * eapply refused_no_attribute; eassumption.
  - exists w1. right. exists (blocked_message e1). split.
    + destruct e1; reflexivity.
    + apply refused_no_button. exact Hfind.
Qed.

(** The loop returns, and its run is made of the calls of [loop_calls]. *)
Lemma seek_loop_calls (target_hhmm : Z * Z) (max_clicks remaining : nat) :
  forall st : W * list Event,
  exists st',
    seek_loop driver target_hhmm max_clicks remaining st = (st', Ok tt) /\
    loop_calls driver target_hhmm max_clicks remaining st st'.
Proof.
  induction remaining as [| rest IH]; intros st.
  - eexists. split; [reflexivity | constructor].
  - destruct (seek_loop_iteration target_hhmm max_clicks rest st)
      as (w1 & hhmm & Hclock & Hyes & Hno).
    destruct (reached hhmm target_hhmm) eqn:Hreached.
    + destruct (Hyes eq_refl) as (now_hhmm & -> & Hge & Hrun).
      eexists. split; [exact Hrun |]. apply calls_reached; assumption.
    + destruct (Hno eq_refl) as [w2 [[Hok Hrun] | [msg [Hblocked Hrun]]]].
      * destruct (click_next_calls (w1, snd st ++ [Print (SeekCurrent hhmm)]))
          as [w2' [[Hok' Hmade] | [msg' [Hblocked' _]]]]; cbn [fst snd] in *.
        -- rewrite Hok in Hok'. injection Hok' as <-.
           destruct (IH (w2, snd st ++ [Print (SeekCurrent hhmm);
                                        Print (SeekClick "minute.up" (max_clicks - S rest + 1)
                                                         max_clicks)]))
             as (st' & Hrest & Hcalls).
           exists st'. split; [rewrite Hrun; exact Hrest |].
           eapply calls_step; eassumption.
        -- rewrite Hok in Hblocked'. discriminate.
      * destruct (click_next_calls (w1, snd st ++ [Print (SeekCurrent hhmm)]))
          as [w2' [[Hok' _] | [msg' [Hblocked' Hrefused]]]]; cbn [fst snd] in *.
        -- rewrite Hblocked in Hok'. discriminate.
        -- rewrite Hblocked in Hblocked'. injection Hblocked' as <- <-.
           eexists. split; [exact Hrun |].
           eapply calls_blocked; eassumption.
Qed.

Lemma seek_with_unfold (max_clicks : nat) (minutes_ahead : Z) (st : W * list Event) :
  seek_with driver max_clicks minutes_ahead st =
    seek_loop driver (target_of (now_beijing driver (fst st)) minutes_ahead)
      max_clicks max_clicks
      (fst st,
       snd st ++ [Print (SeekTarget minutes_ahead
                           (target_of (now_beijing driver (fst st)) minutes_ahead))]).
Proof. reflexivity. Qed.

End AlignmentFacts.

Section AlignmentClaim.
Import Py Trace Io Script.

(** C1.  Whatever the page does, [seek_to_target_time] (for a target less
    than a day ahead) returns without an exception after at most
    [max_clicks] (60) advance attempts.  A refused step ends the run at
    once: nothing follows it in the output, so there is at most one.  The
    attempts of the output are calls to the page: the run is a [loop_calls]
    run, in which every counted step clicked the forward button and the
    refused one was refused by the page.  When the clock never reaches the
    target and no step is refused, exactly [max_clicks] attempts are made.
    A page that refuses the third step gives 2 successful steps and 1
    refused attempt, the button having been probed 3 times; with a budget
    of 5 and a clock that never moves, 5 attempts are made and the button
    is probed 5 times. *)
Theorem seek_to_target_time_bounded :
  (forall (W E : Type) (driver : Driver W E) (max_clicks : nat) (minutes_ahead : Z) (w : W),
      (0 <= minutes_ahead < 1440)%Z ->
      let run := seek_with driver max_clicks minutes_ahead in
      let target_hhmm := target_of (now_beijing driver w) minutes_ahead in
      outcome_of run w = Ok tt
      /\ (advance_attempts (trace_of run w) <= max_clicks)%nat
      /\ (blocked_attempts (trace_of run w) <= 1)%nat
      /\ (forall before e after,
             trace_of run w = before ++ Print (SeekBlocked e) :: after -> after = [])
      /\ loop_calls driver target_hhmm max_clicks max_clicks
            (w, [Print (SeekTarget minutes_ahead target_hhmm)]) (fst (run (w, [])))
      /\ (clock_never_reaches driver target_hhmm ->
          step_never_blocked driver ->
          successful_steps (trace_of run w) = max_clicks /\
          advance_attempts (trace_of run w) = max_clicks))
  /\ (forall (W E : Type) (driver : Driver W E) (minutes_ahead : Z) (w : W),
         (0 <= minutes_ahead < 1440)%Z ->
         outcome_of (seek_to_target_time driver minutes_ahead) w = Ok tt /\
         (advance_attempts (trace_of (seek_to_target_time driver minutes_ahead) w) <= 60)%nat)
  /\ (outcome_of (seek_to_target_time Stubs.blocks_on_third 15) 0%nat = Ok tt /\
      successful_steps (trace_of (seek_to_target_time Stubs.blocks_on_third 15) 0%nat) = 2%nat /\
      blocked_attempts (trace_of (seek_to_target_time Stubs.blocks_on_third 15) 0%nat) = 1%nat /\
      fst (fst (seek_to_target_time Stubs.blocks_on_third 15 (0%nat, []))) = 3%nat)
  /\ (outcome_of (seek_with Stubs.never_reaches 5 15) 0%nat = Ok tt /\
      advance_attempts (trace_of (seek_with Stubs.never_reaches 5 15) 0%nat) = 5%nat /\
      fst (fst (seek_with Stubs.never_reaches 5 15 (0%nat, []))) = 5%nat).
Proof.
  assert (Hgeneral :
    forall (W E : Type) (driver : Driver W E) (max_clicks : nat) (minutes_ahead : Z) (w : W),
      let run := seek_with driver max_clicks minutes_ahead in
      let target_hhmm := target_of (now_beijing driver w) minutes_ahead in
      outcome_of run w = Ok tt
      /\ (advance_attempts (trace_of run w) <= max_clicks)%nat
      /\ (blocked_attempts (trace_of run w) <= 1)%nat
      /\ (forall before e after,
             trace_of run w = before ++ Print (SeekBlocked e) :: after -> after = [])
      /\ loop_calls driver target_hhmm max_clicks max_clicks
            (w, [Print (SeekTarget minutes_ahead target_hhmm)]) (fst (run (w, [])))
      /\ (clock_never_reaches driver target_hhmm ->
          step_never_blocked driver ->
          successful_steps (trace_of run w) = max_clicks /\
          advance_attempts (trace_of run w) = max_clicks)).
  { intros W E driver max_clicks minutes_ahead w run target.
    unfold run, outcome_of, trace_of. rewrite seek_with_unfold. cbn [fst snd app].
    fold target.
    set (st0 := (w, [Print (SeekTarget minutes_ahead target)])).
    destruct (seek_loop_runs driver target max_clicks max_clicks st0)
      as (w' & out & Hrun & Htrace).
    destruct (loop_trace_attempts Htrace) as [Hattempts Hblocked].
    split; [rewrite Hrun; reflexivity |].
    split; [rewrite Hrun; exact Hattempts |].
    split; [rewrite Hrun; exact Hblocked |].
    split; [| split].
    - rewrite Hrun. cbn [fst snd st0 app]. intros before e after Heq.
      destruct before as [| x before]; [discriminate |].
      injection Heq as _ Hout.
      exact (loop_trace_blocked_last Htrace _ _ _ Hout).
    - destruct (seek_loop_calls driver target max_clicks max_clicks st0)
        as (st' & Hrun' & Hcalls).
      rewrite Hrun'. exact Hcalls.
    - intros Hclock Hstep.
      destruct (seek_loop_exhausts max_clicks max_clicks Hclock Hstep st0)
        as (w'' & out' & Hrun' & Hsteps & Hnone).
      rewrite Hrun'. cbn [fst snd st0 app].
      unfold advance_attempts. unfold successful_steps, blocked_attempts in *.
      cbn. lia. }
  split; [intros W E driver max_clicks minutes_ahead w _; apply Hgeneral |]. split.
  - intros W E driver minutes_ahead w _.
    destruct (Hgeneral W E driver 60%nat minutes_ahead w) as (Hok & Hle & _).
    split; assumption.
  - split; repeat split; vm_compute; reflexivity.
Qed.

Lemma seek_to_target_time_bounded_witness :
  successful_steps (trace_of (seek_with Stubs.never_reaches 5 15) 0%nat) = 5%nat /\
  advance_attempts (trace_of (seek_with Stubs.never_reaches 5 15) 0%nat) = 5%nat.
Proof.
  refine (proj2 (proj2 (proj2 (proj2 (proj2
    (proj1 seek_to_target_time_bounded nat string Stubs.never_reaches 5%nat 15%Z 0%nat _)))))
    _ _).
  - lia.
  - intros [w log]. reflexivity.
  - intros [w log]. do 2 eexists. reflexivity.
Defined.

End AlignmentClaim.


(** ** The displayed clock *)

Section ClockFacts.
Import Py Trace Io Text Script.
Local Open Scope string_scope.
Local Open Scope Z_scope.

Lemma hhmm_ge_spec (h m H M : Z) :
  hhmm_ge (h, m) (H, M) = true <-> (h > H \/ (h = H /\ m >= M)).
Proof.
  unfold hhmm_ge. cbn [fst snd].
  rewrite orb_true_iff, andb_true_iff, Z.gtb_ltb, Z.ltb_lt, Z.eqb_eq, Z.geb_leb, Z.leb_le.
  lia.
Qed.

Lemma int_of_empty : int "" = Raise (ValueError "invalid literal for int() with base 10").
Proof. reflexivity. Qed.

Lemma int_not_empty (s : string) (n : Z) : int s = Ok n -> is_empty s = false.
Proof.
  destruct s; [rewrite int_of_empty; discriminate | reflexivity].
Qed.

(** The conversion of [clock_of_texts] on texts that parse. *)
Lemma clock_of_texts_parsed (hour_txt minute_txt ampm_txt : string) (h m : Z) :
  int hour_txt = Ok h -> int minute_txt = Ok m ->
  clock_of_texts hour_txt minute_txt ampm_txt =
    Ok (Some (if has_pm_marker ampm_txt then (if h <? 12 then h + 12 else h)
              else if has_am_marker ampm_txt then (if h =? 12 then 0 else h)
              else h,
              m)).
Proof.
  intros Hh Hm. unfold clock_of_texts.
  rewrite (@int_not_empty _ _ Hh), (@int_not_empty _ _ Hm), Hh, Hm. reflexivity.
Qed.

(** What [clock_of_texts] returns was parsed from its texts. *)
Lemma clock_of_texts_some (hour_txt minute_txt ampm_txt : string) (t : Z * Z) :
  clock_of_texts hour_txt minute_txt ampm_txt = Ok (Some t) ->
  exists h m, int hour_txt = Ok h /\ int minute_txt = Ok m.
Proof.
  unfold clock_of_texts.
  destruct (is_empty hour_txt || is_empty minute_txt); [discriminate |].
  destruct (int hour_txt) as [h | e]; [| discriminate].
  destruct (int minute_txt) as [m | e]; [| discriminate].
  intros _. exists h, m. split; reflexivity.
Qed.

Context {W E : Type}.
Variable driver : Driver W E.

(** [get_map_time_tuple] in terms of the texts it reads. *)
Lemma get_map_time_tuple_of_texts (st st' : W * list Event)
  (hour_txt minute_txt ampm_txt : string) :
  read_clock_texts driver st = (st', Ok (hour_txt, minute_txt, ampm_txt)) ->
  get_map_time_tuple driver st =
    (st', match clock_of_texts hour_txt minute_txt ampm_txt with
          | Ok hhmm => Ok hhmm
          | Raise _ => Ok None
          end).
Proof.
  intros Hread. unfold get_map_time_tuple, try_except, Io.bind. rewrite Hread.
  unfold lift. destruct (clock_of_texts hour_txt minute_txt ampm_txt); reflexivity.
Qed.

(** A time is returned only when the three texts were read and parsed. *)
Lemma get_map_time_tuple_some (st st' : W * list Event) (t : Z * Z) :
  get_map_time_tuple driver st = (st', Ok (Some t)) ->
  exists hour_txt minute_txt ampm_txt,
    read_clock_texts driver st = (st', Ok (hour_txt, minute_txt, ampm_txt)) /\
    clock_of_texts hour_txt minute_txt ampm_txt = Ok (Some t).
Proof.
  unfold get_map_time_tuple, try_except, Io.bind.
  destruct (read_clock_texts driver st) as [st1 [[[hour_txt minute_txt] ampm_txt] | e]].
  - unfold lift.
    destruct (clock_of_texts hour_txt minute_txt ampm_txt) as [hhmm | e] eqn:Hclock.
    + intros Heq. injection Heq as <- ->.
      exists hour_txt, minute_txt, ampm_txt. split; [reflexivity | exact Hclock].
    + unfold ret. intros Heq. discriminate.
  - unfold ret. intros Heq. discriminate.
Qed.

End ClockFacts.

Section ClockClaims.
Import Py Trace Io Text Script.
Local Open Scope string_scope.
Local Open Scope Z_scope.

(** C4.  The loop takes the target as reached exactly when the displayed
    hour is greater, or the hours are equal and the displayed minute is not
    smaller: a comparison within one day, without rollover.  In an
    iteration where the clock is read as reached the loop stops without an
    advance attempt; otherwise its next action is an advance attempt. *)
Theorem hhmm_ge_same_day :
  (forall h m H M : Z,
      hhmm_ge (h, m) (H, M) = true <-> (h > H \/ (h = H /\ m >= M)))
  /\ hhmm_ge (14, 5) (14, 0) = true
  /\ hhmm_ge (13, 59) (14, 0) = false
  /\ hhmm_ge (0, 1) (23, 59) = false
  /\ (forall (W E : Type) (driver : Driver W E) (target_hhmm : Z * Z)
             (max_clicks rest : nat) (st : W * list Event),
         exists w1 hhmm,
           get_map_time_tuple driver st = ((w1, snd st), Ok hhmm) /\
           (reached hhmm target_hhmm = true ->
              exists now_hhmm,
                hhmm = Some now_hhmm /\
                seek_loop driver target_hhmm max_clicks (S rest) st =
                  ((w1, (snd st ++ [Print (SeekCurrent hhmm);
                                    Print (SeekReached now_hhmm target_hhmm)])%list),
                   Ok tt)) /\
           (reached hhmm target_hhmm = false ->
              exists w' attempt out,
                (is_click attempt || is_blocked attempt = true) /\
                seek_loop driver target_hhmm max_clicks (S rest) st =
                  ((w', (snd st ++ Print (SeekCurrent hhmm) :: attempt :: out)%list), Ok tt))).
Proof.
  split; [exact hhmm_ge_spec |]. do 3 (split; [reflexivity |]).
  intros W E driver target_hhmm max_clicks rest st.
  destruct (seek_loop_iteration driver target_hhmm max_clicks rest st)
    as (w1 & hhmm & Hread & Hyes & Hno).
  exists w1, hhmm. split; [exact Hread |]. split.
  - intros Hreached. destruct (Hyes Hreached) as (now_hhmm & Heq & _ & Hrun).
    exists now_hhmm. split; assumption.
  - intros Hnot. destruct (Hno Hnot) as [w2 [[_ Hrun] | [msg [_ Hrun]]]].
    + destruct (seek_loop_runs driver target_hhmm max_clicks rest
                  (w2, (snd st ++ [Print (SeekCurrent hhmm);
                                   Print (SeekClick "minute.up" (max_clicks - S rest + 1)
                                                    max_clicks)])%list))
        as (w' & out & Hrest & _).
      cbn [snd] in Hrest. rewrite <- app_assoc in Hrest. cbn [app] in Hrest.
      exists w'. eexists. exists out. split; [| rewrite Hrun; exact Hrest]. reflexivity.
    + exists w2. eexists. exists []. split; [| exact Hrun]. reflexivity.
Qed.

Lemma hhmm_ge_same_day_witness :
  exists w1 hhmm,
    get_map_time_tuple Stubs.never_reaches (0%nat, []) = ((w1, []), Ok hhmm) /\
    exists w' attempt out,
      (is_click attempt || is_blocked attempt = true) /\
      seek_loop Stubs.never_reaches (23, 59) 5 1 (0%nat, []) =
        ((w', Print (SeekCurrent hhmm) :: attempt :: out), Ok tt).
Proof.
  destruct (proj2 (proj2 (proj2 (proj2 hhmm_ge_same_day)))
              nat string Stubs.never_reaches (23, 59) 5%nat 0%nat (0%nat, []))
    as (w1 & hhmm & Hread & _ & Hno).
  exists w1, hhmm. split; [exact Hread |].
  apply Hno.
  vm_compute in Hread. injection Hread as _ <-. reflexivity.
Defined.

(** C5.  A displayed time that parses is converted to 24-hour form by the
    usual rules: 12 with an AM marker is hour 0, 12 with a PM marker stays
    12, an hour below 12 with a PM marker gets 12 added; the markers are
    AM/PM in any case or 上午/下午, and the PM marker is looked for first, so
    a text counts as AM when it shows an AM marker and no PM marker.  So
    12:30 AM is (0, 30), 12:00 PM is (12, 0) and 3:15 PM (or 下午) is
    (15, 15). *)
Theorem get_map_time_tuple_twelve_hour :
  (forall (W E : Type) (driver : Driver W E) (st st' : W * list Event)
          (hour_txt minute_txt ampm_txt : string) (h m : Z),
      read_clock_texts driver st = (st', Ok (hour_txt, minute_txt, ampm_txt)) ->
      int hour_txt = Ok h ->
      int minute_txt = Ok m ->
      (has_pm_marker ampm_txt = false -> has_am_marker ampm_txt = true -> h = 12 ->
         get_map_time_tuple driver st = (st', Ok (Some (0, m))))
      /\ (has_pm_marker ampm_txt = true -> h = 12 ->
            get_map_time_tuple driver st = (st', Ok (Some (12, m))))
      /\ (has_pm_marker ampm_txt = true -> h < 12 ->
            get_map_time_tuple driver st = (st', Ok (Some (h + 12, m)))))
  /\ (has_am_marker "AM" = true /\ has_am_marker "am" = true /\ has_am_marker "上午" = true /\
      has_pm_marker "AM" = false /\ has_pm_marker "am" = false /\ has_pm_marker "上午" = false /\
      has_pm_marker "PM" = true /\ has_pm_marker "pm" = true /\ has_pm_marker "下午" = true)
  /\ outcome_of (get_map_time_tuple (Stubs.page (Some ("12", "30", "AM")) None 0)) 0%nat
       = Ok (Some (0, 30))
  /\ outcome_of (get_map_time_tuple (Stubs.page (Some ("12", "00", "PM")) None 0)) 0%nat
       = Ok (Some (12, 0))
  /\ outcome_of (get_map_time_tuple (Stubs.page (Some ("3", "15", "PM")) None 0)) 0%nat
       = Ok (Some (15, 15))
  /\ outcome_of (get_map_time_tuple (Stubs.page (Some ("3", "15", "下午")) None 0)) 0%nat
       = Ok (Some (15, 15)).
Proof.
  split.
  - intros W E driver st st' hour_txt minute_txt ampm_txt h m Hread Hh Hm.
    erewrite get_map_time_tuple_of_texts by exact Hread.
    erewrite clock_of_texts_parsed by eassumption.
    repeat split.
    + intros Hpm Ham ->. rewrite Hpm, Ham. reflexivity.
    + intros Hpm ->. rewrite Hpm. reflexivity.
    + intros Hpm Hlt. rewrite Hpm. apply Z.ltb_lt in Hlt. rewrite Hlt. reflexivity.
  - split; [repeat split; reflexivity |]. repeat split; reflexivity.
Qed.

Lemma get_map_time_tuple_twelve_hour_witness :
  get_map_time_tuple (Stubs.page (Some ("3", "15", "PM")) None 0) (0%nat, [])
    = ((0%nat, []), Ok (Some (3 + 12, 15))).
Proof.
  refine (proj2 (proj2 (proj1 get_map_time_tuple_twelve_hour
            nat string (Stubs.page (Some ("3", "15", "PM")) None 0)
            (0%nat, []) (0%nat, []) "3" "15" "PM" 3 15 _ _ _)) _ _);
    first [reflexivity | lia].
Defined.

(** C9 as stated fails: the texts are parsed but never checked against the
    ranges of a time of day.  A page that shows "99" and "75" makes
    [get_map_time_tuple] return (99, 75). *)
Lemma get_map_time_tuple_out_of_range :
  outcome_of (get_map_time_tuple (Stubs.page (Some ("99", "75", "")) None 0)) 0%nat
    = Ok (Some (99, 75))
  /\ ~ (forall (W E : Type) (driver : Driver W E) (st st' : W * list Event) (t : Z * Z),
          get_map_time_tuple driver st = (st', Ok (Some t)) -> valid_time_of_day t).
Proof.
  split; [reflexivity |].
  intros Hall.
  assert (Hbad : valid_time_of_day (99, 75)).
  { apply (Hall nat string (Stubs.page (Some ("99", "75", "")) None 0)
             (0%nat, []) (0%nat, [])).
    reflexivity. }
  destruct Hbad as [[_ Hhour] _]. cbn in Hhour. lia.
Qed.

(** C9, amended.  A value returned by [get_map_time_tuple] was computed from
    the integers [h] and [m] that the hour and minute texts of the page parse
    to; its minute is [m], and it is a valid time of day ([hour] in 0..23,
    [minute] in 0..59) whenever [h] is in 0..23 and [m] is in 0..59. *)
Theorem get_map_time_tuple_time_of_day :
  forall (W E : Type) (driver : Driver W E) (st st' : W * list Event) (hour minute : Z),
    get_map_time_tuple driver st = (st', Ok (Some (hour, minute))) ->
    exists hour_txt minute_txt ampm_txt h m,
      read_clock_texts driver st = (st', Ok (hour_txt, minute_txt, ampm_txt)) /\
      int hour_txt = Ok h /\
      int minute_txt = Ok m /\
      minute = m /\
      (0 <= h <= 23 -> 0 <= m <= 59 -> valid_time_of_day (hour, minute)).
Proof.
  intros W E driver st st' hour minute Hrun.
  destruct (@get_map_time_tuple_some _ _ _ _ _ _ Hrun)
    as (hour_txt & minute_txt & ampm_txt & Hread & Hclock).
  destruct (@clock_of_texts_some _ _ _ _ Hclock) as (h & m & Hh & Hm).
  exists hour_txt, minute_txt, ampm_txt, h, m.
  do 3 (split; [assumption |]).
  erewrite clock_of_texts_parsed in Hclock by eassumption.
  injection Hclock as Hhour Hminute. split; [symmetry; exact Hminute |].
  intros Hhr Hmr. unfold valid_time_of_day. cbn [fst snd]. subst hour minute.
  split; [| exact Hmr].
  destruct (has_pm_marker ampm_txt).
  - destruct (Z.ltb_spec h 12); lia.
  - destruct (has_am_marker ampm_txt); [| exact Hhr].
    destruct (Z.eqb_spec h 12); lia.
Qed.

Lemma get_map_time_tuple_time_of_day_witness :
  exists hour_txt minute_txt ampm_txt h m,
    read_clock_texts (Stubs.page (Some ("3", "15", "PM")) None 0) (0%nat, [])
      = ((0%nat, []), Ok (hour_txt, minute_txt, ampm_txt)) /\
    int hour_txt = Ok h /\
    int minute_txt = Ok m /\
    15 = m /\
    (0 <= h <= 23 -> 0 <= m <= 59 -> valid_time_of_day (15, 15)).
Proof.
  apply (get_map_time_tuple_time_of_day
           (Stubs.page (Some ("3", "15", "PM")) None 0) (0%nat, []) (st' := (0%nat, []))).
  reflexivity.
Defined.

End ClockClaims.


(** ** The detection decision *)

Section ReportFacts.
Import Py Trace Io Text Script.
Context {W E : Type}.
Variable driver : Driver W E.
Variable format_debug : DebugMsg -> string.


Lemma sample_and_report_unfold (webhook url : string) (img : Region.Image)
  (rgb : Color.RGB) (coverage : Q) (info : Region.CoverageInfo) (st : W * list Event) :
  Region.avg_color img (640, 360)%Z 7 = Ok rgb ->
  Region.rain_coverage img (640, 360)%Z 12 = Ok (coverage, info) ->
  sample_and_report driver format_debug webhook url default_viewport img st =
    if Qle_bool (10 # 100) coverage then
      send_wecom_text driver webhook (message_of format_debug url (debug_of rgb coverage info))
        (fst st,
         snd st ++ [Print (Debug (debug_of rgb coverage info)); Print (Step "[6/6]");
                    Print ResultRainDetected;
                    Print (Message (message_of format_debug url (debug_of rgb coverage info)))])
    else
      ((fst st,
        snd st ++ [Print (Debug (debug_of rgb coverage info)); Print (Step "[6/6]");
                   Print ResultNoRain; Print NoEchoFound]),
       Ok tt).
Proof.
  intros Havg Hcov. unfold sample_and_report.
  change (vp_width default_viewport / 2)%Z with 640%Z.
  change (vp_height default_viewport / 2)%Z with 360%Z.
  unfold Io.bind at 1. unfold lift at 1. rewrite Havg.
  unfold Io.bind at 1. unfold lift at 1. rewrite Hcov.
  fold (debug_of rgb coverage info). fold (message_of format_debug url (debug_of rgb coverage info)).
  unfold Io.bind at 1. unfold print at 1. cbn [fst snd].
  unfold Io.bind at 1. unfold print at 1. cbn [fst snd].
  destruct (Qle_bool (10 # 100) coverage).
  - unfold Io.bind, print. cbn [fst snd]. rewrite <- !app_assoc. reflexivity.
  - unfold Io.bind, print. cbn [fst snd]. rewrite <- !app_assoc. reflexivity.
Qed.

End ReportFacts.

Section ReportClaim.
Import Py Trace Io Text Script.
Local Open Scope Q_scope.



(** A run whose page never loads gives up after three attempts, reports the
    error and still closes the browser. *)
Example main_closes_browser_after_load_failure :
  outcome_of (main Stubs.broken Stubs.no_debug_text "") 0%nat
    = Raise (WebDriverException "net::ERR_CONNECTION_CLOSED")
  /\ last (trace_of (main Stubs.broken Stubs.no_debug_text "") 0%nat) (Print ScriptVersion)
       = Print Cleanup.
Proof. split; reflexivity. Qed.

End ReportClaim.

(** * Further properties of the code *)

(** ** Colours *)

Section MoreColorFacts.
Import Py Color.
Local Open Scope Q_scope.

Lemma mod1_range (x : Q) : 0 <= mod1 x /\ mod1 x < 1.
Proof.
  unfold mod1. pose proof (Qfloor_le x) as Hlo. pose proof (Qlt_floor x) as Hhi.
  rewrite inject_Z_plus in Hhi. change (inject_Z 1) with 1 in Hhi. lra.
Qed.

(** Division by the constant 255 as a multiplication, for [lra]. *)
Ltac by_255 := unfold Qdiv in *; change (/ 255) with (1 # 255) in *.

Lemma Qlt_bool_scale (a b : Q) : Qlt_bool (a / 255) (b / 255) = Qlt_bool a b.
Proof.
  destruct (Qlt_bool a b) eqn:Hab.
  - apply Qlt_bool_true in Hab. apply Qlt_bool_true. by_255. lra.
  - apply Qlt_bool_false in Hab. apply Qlt_bool_false. by_255. lra.
Qed.

Lemma max3_scale (r g b : Q) : max3 (r / 255) (g / 255) (b / 255) = max3 r g b / 255.
Proof.
  unfold max3, max2. rewrite Qlt_bool_scale.
  destruct (Qlt_bool r g); rewrite Qlt_bool_scale; destruct (Qlt_bool _ b); reflexivity.
Qed.

Lemma min3_scale (r g b : Q) : min3 (r / 255) (g / 255) (b / 255) = min3 r g b / 255.
Proof.
  unfold min3, min2. rewrite Qlt_bool_scale.
  destruct (Qlt_bool g r); rewrite Qlt_bool_scale; destruct (Qlt_bool b _); reflexivity.
Qed.

Lemma max3_ge (r g b : Q) : r <= max3 r g b /\ g <= max3 r g b /\ b <= max3 r g b.
Proof.
  unfold max3. pose proof (max2_ge r g). pose proof (max2_ge (max2 r g) b). lra.
Qed.

Lemma min3_le (r g b : Q) : min3 r g b <= r /\ min3 r g b <= g /\ min3 r g b <= b.
Proof.
  unfold min3. pose proof (min2_le r g). pose proof (min2_le (min2 r g) b). lra.
Qed.

Lemma max3_lub (r g b c : Q) : r <= c -> g <= c -> b <= c -> max3 r g b <= c.
Proof. unfold max3, max2. intros. destruct (Qlt_bool r g); destruct (Qlt_bool _ b); assumption. Qed.

Lemma min3_glb (r g b c : Q) : c <= r -> c <= g -> c <= b -> c <= min3 r g b.
Proof. unfold min3, min2. intros. destruct (Qlt_bool g r); destruct (Qlt_bool b _); assumption. Qed.

(** The three outcomes of [rgb_to_hsv_deg], by the largest and the smallest
    channel. *)
Lemma rgb_to_hsv_deg_cases (r g b : Q) :
  let M := max3 r g b in
  let m := min3 r g b in
  (m == M -> rgb_to_hsv_deg (r, g, b) = Ok (0 * 360, 0, M / 255))
  /\ (~ m == M -> M == 0 -> rgb_to_hsv_deg (r, g, b) = Raise ZeroDivisionError)
  /\ (~ m == M -> ~ M == 0 ->
      exists h, rgb_to_hsv_deg (r, g, b) =
                  Ok (mod1 (h / 6) * 360, (M / 255 - m / 255) / (M / 255), M / 255)).
Proof.
  intros M m. unfold rgb_to_hsv_deg, rgb_to_hsv.
  rewrite max3_scale, min3_scale. fold M m.
  repeat split.
  - intros Heq.
    assert (H : Qeq_bool (m / 255) (M / 255) = true) by (apply Qeq_bool_iff; by_255; lra).
    rewrite H. reflexivity.
  - intros Hne Hz.
    assert (H : Qeq_bool (m / 255) (M / 255) = false).
    { destruct (Qeq_bool (m / 255) (M / 255)) eqn:E; [| reflexivity].
      apply Qeq_bool_iff in E. exfalso. apply Hne. by_255. lra. }
    rewrite H. unfold truediv.
    assert (H0 : Qeq_bool (M / 255) 0 = true) by (apply Qeq_bool_iff; by_255; lra).
    rewrite H0. reflexivity.
  - intros Hne Hnz.
    assert (H : Qeq_bool (m / 255) (M / 255) = false).
    { destruct (Qeq_bool (m / 255) (M / 255)) eqn:E; [| reflexivity].
      apply Qeq_bool_iff in E. exfalso. apply Hne. by_255. lra. }
    rewrite H. unfold truediv.
    assert (H0 : Qeq_bool (M / 255) 0 = false).
    { destruct (Qeq_bool (M / 255) 0) eqn:E; [| reflexivity].
      apply Qeq_bool_iff in E. exfalso. apply Hnz. by_255. lra. }
    assert (H1 : Qeq_bool (M / 255 - m / 255) 0 = false).
    { destruct (Qeq_bool (M / 255 - m / 255) 0) eqn:E; [| reflexivity].
      apply Qeq_bool_iff in E. exfalso. apply Hne. by_255. lra. }
    rewrite H0, H1. cbn [Py.bind]. eexists. reflexivity.
Qed.

(** The ranges of the HSV triple of a colour with channels in 0..255. *)
Lemma rgb_to_hsv_deg_channel_ranges (r g b : Q) :
  0 <= r <= 255 -> 0 <= g <= 255 -> 0 <= b <= 255 ->
  exists h s v,
    rgb_to_hsv_deg (r, g, b) = Ok (h, s, v) /\
    0 <= h /\ h < 360 /\ 0 <= s /\ s <= 1 /\ 0 <= v /\ v <= 1.
Proof.
  intros Hr Hg Hb.
  destruct (rgb_to_hsv_deg_cases r g b) as (Hgrey & _ & Hcolour).
  pose proof (max3_ge r g b) as HM. pose proof (min3_le r g b) as Hm.
  assert (HM255 : max3 r g b <= 255) by (apply max3_lub; lra).
  assert (Hm0 : 0 <= min3 r g b) by (apply min3_glb; lra).
  destruct (Qeq_dec (min3 r g b) (max3 r g b)) as [Heq | Hne].
  - rewrite (Hgrey Heq). do 3 eexists. split; [reflexivity |]. by_255. lra.
  - assert (Hnz : ~ max3 r g b == 0) by (intros Hz; apply Hne; lra).
    destruct (Hcolour Hne Hnz) as [h Hrun]. rewrite Hrun.
    do 3 eexists. split; [reflexivity |].
    pose proof (mod1_range (h / 6)) as [Hlo Hhi].
    assert (Hpos : 0 < max3 r g b / 255) by (by_255; lra).
    split; [lra |]. split; [lra |].
    split; [apply Qle_shift_div_l; [exact Hpos | by_255; lra] |].
    split; [apply Qle_shift_div_r; [exact Hpos | by_255; lra] |].
    by_255. lra.
Qed.

(** X2.  [is_rain_color] raises [ZeroDivisionError] exactly on the colours
    whose largest channel is 0 while another channel is negative (the
    division [rangec / maxc] of [colorsys.rgb_to_hsv]); on every other
    colour it returns a verdict. *)
Theorem is_rain_color_zero_division (r g b : Q) :
  (is_rain_color (r, g, b) = Raise ZeroDivisionError <->
   (max3 r g b == 0 /\ min3 r g b < 0))
  /\ ((exists ok reason, is_rain_color (r, g, b) = Ok (ok, reason)) <->
      ~ (max3 r g b == 0 /\ min3 r g b < 0)).
Proof.
  destruct (rgb_to_hsv_deg_cases r g b) as (Hgrey & Hzero & Hcolour).
  pose proof (max3_ge r g b) as HM. pose proof (min3_le r g b) as Hm.
  assert (Hreturns : forall h s v, rgb_to_hsv_deg (r, g, b) = Ok (h, s, v) ->
                     exists ok reason, is_rain_color (r, g, b) = Ok (ok, reason)).
  { intros h s v Hhsv. rewrite (is_rain_color_unfold _ Hhsv).
    destruct (Qlt_bool s SATURATION_THRESHOLD); [do 2 eexists; reflexivity |].
    destruct (negb (hue_in_ranges h HUE_RANGES_DEG)); do 2 eexists; reflexivity. }
  destruct (Qeq_dec (min3 r g b) (max3 r g b)) as [Heq | Hne].
  - destruct (Hreturns _ _ _ (Hgrey Heq)) as (ok & reason & Hrun). rewrite Hrun.
    split; split.
    + discriminate.
    + intros [Hz Hneg]. lra.
    + intros _ [Hz Hneg]. lra.
    + intros _. exists ok, reason. reflexivity.
  - destruct (Qeq_dec (max3 r g b) 0) as [Hz | Hnz].
    + assert (Hrun : is_rain_color (r, g, b) = Raise ZeroDivisionError).
      { unfold is_rain_color. rewrite (Hzero Hne Hz). reflexivity. }
      rewrite Hrun. split; split.
      * intros _. split; [exact Hz |].
        destruct (Qlt_le_dec (min3 r g b) 0) as [Hlt | Hge]; [exact Hlt |].
        exfalso. apply Hne. lra.
      * reflexivity.
      * intros (ok & reason & Habs). discriminate.
      * intros Hnot. exfalso. apply Hnot. split; [exact Hz |].
        destruct (Qlt_le_dec (min3 r g b) 0) as [Hlt | Hge]; [exact Hlt |].
        exfalso. apply Hne. lra.
    + destruct (Hcolour Hne Hnz) as [h Hhsv].
      destruct (Hreturns _ _ _ Hhsv) as (ok & reason & Hrun). rewrite Hrun.
      split; split.
      * discriminate.
      * intros [Hz _]. contradiction.
      * intros _ [Hz _]. contradiction.
      * intros _. exists ok, reason. reflexivity.
Qed.

(** X3.  With the configured threshold and hue ranges, a colour is rain
    exactly when its saturation is at least 0.26 and its hue lies in
    [0, 60] or in [170, 330]: the blue and the purple range meet at 260. *)
Theorem is_rain_color_default_verdict (rgb : RGB) (h s v : Q) :
  rgb_to_hsv_deg rgb = Ok (h, s, v) ->
  exists ok reason,
    is_rain_color rgb = Ok (ok, reason) /\
    (ok = true <->
     (26 # 100) <= s /\ ((0 <= h /\ h <= 60) \/ (170 <= h /\ h <= 330))).
Proof.
  intros Hhsv. rewrite (is_rain_color_unfold _ Hhsv).
  assert (Hhue : hue_in_ranges h HUE_RANGES_DEG = true <->
                 ((0 <= h /\ h <= 60) \/ (170 <= h /\ h <= 330))).
  { rewrite hue_in_ranges_spec. unfold HUE_RANGES_DEG, spec_range_matches. split.
    - intros [[lo hi] [Hin Hmatch]]. cbn [In] in Hin.
      destruct Hin as [Heq | [Heq | [Heq | []]]]; injection Heq as <- <-; lra.
    - intros [[Hlo Hhi] | [Hlo Hhi]].
      + exists (0, 60). split; [right; left; reflexivity | lra].
      + destruct (Qlt_le_dec 260 h) as [Hgt | Hle].
        * exists (260, 330). split; [right; right; left; reflexivity | lra].
        * exists (170, 260). split; [left; reflexivity | lra]. }
  destruct (Qlt_bool s SATURATION_THRESHOLD) eqn:Hsat.
  - apply Qlt_bool_true in Hsat. unfold SATURATION_THRESHOLD in Hsat.
    do 2 eexists. split; [reflexivity |]. split; [discriminate | intros [Hs _]; lra].
  - apply Qlt_bool_false in Hsat. unfold SATURATION_THRESHOLD in Hsat.
    destruct (hue_in_ranges h HUE_RANGES_DEG) eqn:Hin; cbn [negb].
    + do 2 eexists. split; [reflexivity |].
      split; [intros _; split; [exact Hsat | apply Hhue; reflexivity] | reflexivity].
    + do 2 eexists. split; [reflexivity |].
      split; [discriminate |]. intros [_ Hrange]. apply Hhue in Hrange. congruence.
Qed.

Lemma is_rain_color_default_verdict_witness :
  exists h s ok reason,
    is_rain_color (0, 0, 255) = Ok (ok, reason) /\
    (ok = true <->
     (26 # 100) <= s /\ ((0 <= h /\ h <= 60) \/ (170 <= h /\ h <= 330))).
Proof.
  do 2 eexists.
  eapply (@is_rain_color_default_verdict (0, 0, 255)).
  vm_compute. reflexivity.
Defined.

(** X4.  [hue_in_ranges] is the disjunction over its ranges: a list of
    ranges put together from two lists accepts a hue exactly when one of
    the two does, so the order of the configured ranges does not matter,
    and an empty configuration accepts nothing. *)
Theorem hue_in_ranges_app :
  (forall (h : Q) (ranges more : list (Q * Q)),
      hue_in_ranges h (ranges ++ more) = hue_in_ranges h ranges || hue_in_ranges h more)
  /\ (forall (h : Q) (ranges more : list (Q * Q)),
         hue_in_ranges h (ranges ++ more) = hue_in_ranges h (more ++ ranges))
  /\ (forall h : Q, hue_in_ranges h [] = false).
Proof.
  assert (Happ : forall (h : Q) (ranges more : list (Q * Q)),
             hue_in_ranges h (ranges ++ more) =
             hue_in_ranges h ranges || hue_in_ranges h more).
  { intros h ranges more. induction ranges as [| [lo hi] rest IH]; [reflexivity |].
    cbn [app hue_in_ranges]. rewrite IH.
    destruct (Qle_bool lo hi);
      [ destruct (Qle_bool lo h && Qle_bool h hi)
      | destruct (Qle_bool lo h || Qle_bool h hi) ]; reflexivity. }
  split; [exact Happ |]. split; [| reflexivity].
  intros h ranges more. rewrite !Happ. apply orb_comm.
Qed.

(** X5.  [rain_score] is [1.6 r + 0.6 b - 0.9 g]: it grows with red and
    blue, falls with green, and on colours with channels in 0..255 it stays
    between -229.5 and 561. *)
Theorem rain_score_bounds (r g b : Q) :
  0 <= r <= 255 -> 0 <= g <= 255 -> 0 <= b <= 255 ->
  rain_score (r, g, b) == (16 # 10) * r + (6 # 10) * b - (9 # 10) * g
  /\ - (2295 # 10) <= rain_score (r, g, b) <= 561
  /\ (forall r' g' b', r <= r' -> g' <= g -> b <= b' ->
        rain_score (r, g, b) <= rain_score (r', g', b')).
Proof.
  intros Hr Hg Hb. unfold rain_score. repeat split; try lra.
  intros r' g' b' Hr' Hg' Hb'. lra.
Qed.

Lemma rain_score_bounds_witness :
  rain_score (255, 0, 255) == (16 # 10) * 255 + (6 # 10) * 255 - (9 # 10) * 0
  /\ - (2295 # 10) <= rain_score (255, 0, 255) <= 561
  /\ (forall r' g' b', 255 <= r' -> g' <= 0 -> 255 <= b' ->
        rain_score (255, 0, 255) <= rain_score (r', g', b')).
Proof.
  apply (@rain_score_bounds 255 0 255); split; vm_compute; discriminate.
Defined.

(** X6.  The legacy score and the classifier disagree on every grey from
    85 up: its score reaches the score threshold 110 although
    [is_rain_color] turns it down for its saturation 0. *)
Theorem rain_score_grey_over_threshold (c : Q) :
  85 <= c ->
  RAIN_SCORE_THRESHOLD <= rain_score (c, c, c)
  /\ exists hsv, is_rain_color (c, c, c) = Ok (false, LowSaturation hsv).
Proof.
  intros Hc. split.
  - unfold rain_score, RAIN_SCORE_THRESHOLD. lra.
  - assert (Hhsv : rgb_to_hsv_deg (c, c, c) = Ok (0 * 360, 0, c / 255)).
    { unfold rgb_to_hsv_deg, rgb_to_hsv, max3, min3, max2, min2.
      rewrite !Qlt_bool_irrefl, Qeq_bool_refl. reflexivity. }
    rewrite (is_rain_color_unfold _ Hhsv). eexists. reflexivity.
Qed.

Lemma rain_score_grey_over_threshold_witness :
  RAIN_SCORE_THRESHOLD <= rain_score (255, 255, 255)
  /\ exists hsv, is_rain_color (255, 255, 255) = Ok (false, LowSaturation hsv).
Proof.
  apply (@rain_score_grey_over_threshold 255). vm_compute. discriminate.
Defined.

End MoreColorFacts.

(** ** Regions *)

Section MoreRegionFacts.
Import Py Color Region Notions.
Local Open Scope Z_scope.

Lemma clamped_box_inverted (img : Image) (cx cy radius x0 y0 x1 y1 : Z) :
  clamped_box img (cx, cy) radius = (x0, y0, x1, y1) ->
  (x1 < x0 \/ y1 < y0) <-> box_inverted img (cx, cy) radius.
Proof.
  unfold clamped_box, box_inverted. cbn [fst snd].
  intros Hbox. injection Hbox as <- <- <- <-. lia.
Qed.

(** X7.  [rain_coverage] raises exactly when the clamped box is inverted:
    the radius is negative, or the centre lies more than [radius] beyond the
    right or lower edge or more than [radius + 1] before the left or upper
    edge.  What it raises is the [ValueError] of [crop]. *)
Theorem rain_coverage_raises_iff (img : Image) (cx cy radius : Z) :
  ((exists e, rain_coverage img (cx, cy) radius = Raise e) <->
   box_inverted img (cx, cy) radius)
  /\ (forall e, rain_coverage img (cx, cy) radius = Raise e -> exists msg, e = ValueError msg).
Proof.
  destruct (clamped_box img (cx, cy) radius) as [[[x0 y0] x1] y1] eqn:Hbox.
  pose proof (@clamped_box_inverted img cx cy radius x0 y0 x1 y1 Hbox) as Hinv.
  destruct (rain_coverage_cases img (cx, cy) radius Hbox) as (Hx & Hy & Hzero & Hsome).
  destruct (Z.lt_ge_cases x1 x0) as [Hlt | Hge].
  { rewrite (Hx Hlt). split.
    - split; [intros _; apply Hinv; left; exact Hlt | intros _; eexists; reflexivity].
    - intros e He. injection He as <-. eexists. reflexivity. }
  destruct (Z.lt_ge_cases y1 y0) as [Hlt | Hge'].
  { rewrite (Hy Hge Hlt). split.
    - split; [intros _; apply Hinv; right; exact Hlt | intros _; eexists; reflexivity].
    - intros e He. injection He as <-. eexists. reflexivity. }
  assert (Hok : exists r, rain_coverage img (cx, cy) radius = Ok r).
  { destruct (Z.eq_dec x0 x1) as [Hex | Hnx].
    - eexists. apply (Hzero Hge Hge'). left. exact Hex.
    - destruct (Z.eq_dec y0 y1) as [Hey | Hny].
      + eexists. apply (Hzero Hge Hge'). right. exact Hey.
      + destruct Hsome as (ratio & info & Hrun & _); [lia | lia |].
        eexists. exact Hrun. }
  destruct Hok as [r Hrun]. rewrite Hrun. split.
  - split; [intros [e He]; discriminate | intros Hbad; apply Hinv in Hbad; lia].
  - intros e He. discriminate.
Qed.

(** X8.  [avg_color] raises on the same inputs: exactly when the clamped box
    is inverted, and then with the [ValueError] of [crop]; a division by
    zero never gets out. *)
Theorem avg_color_raises_iff (img : Image) (cx cy radius : Z) :
  ((exists e, avg_color img (cx, cy) radius = Raise e) <->
   box_inverted img (cx, cy) radius)
  /\ (forall e, avg_color img (cx, cy) radius = Raise e -> exists msg, e = ValueError msg).
Proof.
  destruct (clamped_box img (cx, cy) radius) as [[[x0 y0] x1] y1] eqn:Hbox.
  pose proof (@clamped_box_inverted img cx cy radius x0 y0 x1 y1 Hbox) as Hinv.
  destruct (avg_color_cases img (cx, cy) radius Hbox) as (Hx & Hy & Hzero & Hsome).
  destruct (Z.lt_ge_cases x1 x0) as [Hlt | Hge].
  { rewrite (Hx Hlt). split.
    - split; [intros _; apply Hinv; left; exact Hlt | intros _; eexists; reflexivity].
    - intros e He. injection He as <-. eexists. reflexivity. }
  destruct (Z.lt_ge_cases y1 y0) as [Hlt | Hge'].
  { rewrite (Hy Hge Hlt). split.
    - split; [intros _; apply Hinv; right; exact Hlt | intros _; eexists; reflexivity].
    - intros e He. injection He as <-. eexists. reflexivity. }
  assert (Hok : exists r, avg_color img (cx, cy) radius = Ok r).
  { destruct (Z.eq_dec x0 x1) as [Hex | Hnx].
    - eexists. apply (Hzero Hge Hge'). left. exact Hex.
    - destruct (Z.eq_dec y0 y1) as [Hey | Hny].
      + eexists. apply (Hzero Hge Hge'). right. exact Hey.
      + destruct Hsome as (rgb & Hrun); [lia | lia |].
        eexists. exact Hrun. }
  destruct Hok as [r Hrun]. rewrite Hrun. split.
  - split; [intros [e He]; discriminate | intros Hbad; apply Hinv in Hbad; lia].
  - intros e He. discriminate.
Qed.

Lemma sum_of_shift (f : Pixel -> Z) (pixels : list Pixel) (acc : Z) :
  fold_left (fun a p => a + f p) pixels acc = acc + sum_of f pixels.
Proof.
  unfold sum_of. revert acc.
  induction pixels as [| p rest IH]; intros acc; cbn [fold_left]; [lia |].
  rewrite IH, (IH (0 + f p)). lia.
Qed.

Lemma sum_of_cons (f : Pixel -> Z) (p : Pixel) (rest : list Pixel) :
  sum_of f (p :: rest) = f p + sum_of f rest.
Proof. unfold sum_of at 1. cbn [fold_left]. rewrite sum_of_shift. lia. Qed.

Lemma len_cons (p : Pixel) (rest : list Pixel) : len (p :: rest) = 1 + len rest.
Proof. unfold len. cbn [List.length]. lia. Qed.

Lemma sum_of_bounds (f : Pixel -> Z) (pixels : list Pixel) :
  (forall p, 0 <= f p <= 255) ->
  0 <= sum_of f pixels <= 255 * len pixels.
Proof.
  intros Hf. induction pixels as [| p rest IH].
  - unfold sum_of, len. cbn. lia.
  - rewrite sum_of_cons, len_cons. specialize (Hf p). lia.
Qed.

Lemma sum_of_constant (f : Pixel -> Z) (p : Pixel) (pixels : list Pixel) :
  (forall q, In q pixels -> q = p) ->
  sum_of f pixels = f p * len pixels.
Proof.
  induction pixels as [| q rest IH]; intros Hall.
  - unfold sum_of, len. cbn. lia.
  - rewrite sum_of_cons, len_cons.
    rewrite (Hall q (or_introl eq_refl)).
    rewrite IH by (intros q' Hq'; apply Hall; right; exact Hq'). lia.
Qed.

Lemma channel_value_bounds (c : Byte.byte) : 0 <= Z.of_N (Byte.to_N c) <= 255.
Proof. pose proof (Byte.to_N_bounded c). lia. Qed.

Lemma red_bounds (p : Pixel) : 0 <= red p <= 255.
Proof. destruct p as [[r g] b]. apply channel_value_bounds. Qed.

Lemma green_bounds (p : Pixel) : 0 <= green p <= 255.
Proof. destruct p as [[r g] b]. apply channel_value_bounds. Qed.

Lemma blue_bounds (p : Pixel) : 0 <= blue p <= 255.
Proof. destruct p as [[r g] b]. apply channel_value_bounds. Qed.

(** [avg_color] on a region with pixels: the three means. *)
Lemma avg_color_means (img : Image) (center_xy : Z * Z) (radius : Z)
  (region : Cropped) (p : Pixel) (rest : list Pixel) :
  crop img (clamped_box img center_xy radius) = Ok region ->
  data region = p :: rest ->
  avg_color img center_xy radius =
    Ok (inject_Z (sum_of red (p :: rest)) / inject_Z (len (p :: rest)),
        inject_Z (sum_of green (p :: rest)) / inject_Z (len (p :: rest)),
        inject_Z (sum_of blue (p :: rest)) / inject_Z (len (p :: rest)))%Q.
Proof.
  intros Hcrop Hdata. unfold avg_color. rewrite Hcrop. cbn [Py.bind]. rewrite Hdata.
  rewrite !sum_len_truediv. reflexivity.
Qed.

Lemma mean_bounds (total count : Z) :
  0 < count -> 0 <= total <= 255 * count ->
  (0 <= inject_Z total / inject_Z count /\ inject_Z total / inject_Z count <= 255)%Q.
Proof.
  intros Hpos [Hlo Hhi].
  assert (Hq : (0 < inject_Z count)%Q).
  { change 0%Q with (inject_Z 0). rewrite <- Zlt_Qlt. exact Hpos. }
  split.
  - apply Qle_shift_div_l; [exact Hq |]. rewrite Qmult_0_l.
    change 0%Q with (inject_Z 0). rewrite <- Zle_Qle. exact Hlo.
  - apply Qle_shift_div_r; [exact Hq |].
    change 255%Q with (inject_Z 255). rewrite <- inject_Z_mult, <- Zle_Qle. exact Hhi.
Qed.

(** X9.  Whatever [avg_color] returns is a colour: each of its three
    channels lies in [0, 255]. *)
Theorem avg_color_channel_bounds (img : Image) (center_xy : Z * Z) (radius : Z) (r g b : Q) :
  avg_color img center_xy radius = Ok (r, g, b) ->
  (0 <= r /\ r <= 255 /\ 0 <= g /\ g <= 255 /\ 0 <= b /\ b <= 255)%Q.
Proof.
  intros Hrun.
  destruct (crop img (clamped_box img center_xy radius)) as [region | e] eqn:Hcrop;
    [| unfold avg_color in Hrun; rewrite Hcrop in Hrun; discriminate].
  destruct (data region) as [| p rest] eqn:Hdata.
  - unfold avg_color in Hrun. rewrite Hcrop in Hrun. cbn [Py.bind] in Hrun.
    rewrite Hdata in Hrun. injection Hrun as <- <- <-. lra.
  - rewrite (@avg_color_means _ _ _ _ _ _ Hcrop Hdata) in Hrun. injection Hrun as <- <- <-.
    pose proof (len_pos p rest) as Hpos.
    destruct (@mean_bounds _ _ Hpos (@sum_of_bounds red (p :: rest) red_bounds)).
    destruct (@mean_bounds _ _ Hpos (@sum_of_bounds green (p :: rest) green_bounds)).
    destruct (@mean_bounds _ _ Hpos (@sum_of_bounds blue (p :: rest) blue_bounds)).
    repeat split; assumption.
Qed.

Lemma avg_color_channel_bounds_witness :
  exists r g b,
    avg_color Stubs.blue_yellow (0, 0) 1 = Ok (r, g, b) /\
    (0 <= r /\ r <= 255 /\ 0 <= g /\ g <= 255 /\ 0 <= b /\ b <= 255)%Q.
Proof.
  do 3 eexists. split; [vm_compute; reflexivity |].
  eapply (@avg_color_channel_bounds Stubs.blue_yellow (0, 0) 1).
  vm_compute. reflexivity.
Defined.

(** X10.  On a region whose pixels all have one colour, [avg_color] returns
    that colour. *)
Theorem avg_color_uniform (img : Image) (center_xy : Z * Z) (radius : Z)
  (region : Cropped) (p : Pixel) :
  crop img (clamped_box img center_xy radius) = Ok region ->
  data region <> [] ->
  (forall q, In q (data region) -> q = p) ->
  exists r g b,
    avg_color img center_xy radius = Ok (r, g, b) /\
    (r == inject_Z (red p) /\ g == inject_Z (green p) /\ b == inject_Z (blue p))%Q.
Proof.
  intros Hcrop Hne Hall.
  destruct (data region) as [| q rest] eqn:Hdata; [congruence |].
  rewrite (@avg_color_means _ _ _ _ _ _ Hcrop Hdata).
  do 3 eexists. split; [reflexivity |].
  pose proof (len_pos q rest) as Hpos.
  assert (Hq : ~ (inject_Z (len (q :: rest)) == 0)%Q).
  { intros Hz. unfold Qeq in Hz. simpl in Hz. lia. }
  rewrite !(fun f => @sum_of_constant f p (q :: rest) Hall), !inject_Z_mult.
  repeat split; apply Qdiv_mult_l; exact Hq.
Qed.

Lemma avg_color_uniform_witness :
  exists r g b,
    avg_color (uniform 10 10 Stubs.gray_px) (5, 5) 2 = Ok (r, g, b) /\
    (r == 90 /\ g == 100 /\ b == 90)%Q.
Proof.
  eapply (@avg_color_uniform (uniform 10 10 Stubs.gray_px) (5, 5) 2 _ Stubs.gray_px).
  - reflexivity.
  - cbn. discriminate.
  - intros q Hq. cbn in Hq.
    repeat (destruct Hq as [<- | Hq]; [reflexivity |]). destruct Hq.
Defined.

Lemma zrange_length (lo hi : Z) : List.length (zrange lo hi) = Z.to_nat (hi - lo).
Proof. unfold zrange. rewrite length_map, length_seq. reflexivity. Qed.

Lemma flat_map_rows_length (A B : Type) (f : A -> list B) (l : list A) (n : nat) :
  (forall a, List.length (f a) = n) ->
  List.length (flat_map f l) = (List.length l * n)%nat.
Proof.
  intros Hf. induction l as [| a rest IH]; [reflexivity |].
  cbn [flat_map List.length]. rewrite length_app, Hf, IH. lia.
Qed.

(** A crop has as many pixels as its box has cells. *)
Lemma crop_data_length (img : Image) (x0 y0 x1 y1 : Z) (region : Cropped) :
  crop img (x0, y0, x1, y1) = Ok region ->
  x0 <= x1 /\ y0 <= y1 /\
  size region = (x1 - x0, y1 - y0) /\
  len (data region) = (x1 - x0) * (y1 - y0).
Proof.
  unfold crop.
  destruct (Z.ltb_spec x1 x0) as [Hx | Hx]; [discriminate |].
  destruct (Z.ltb_spec y1 y0) as [Hy | Hy]; [discriminate |].
  intros Hcrop. injection Hcrop as <-. cbn [size data].
  repeat split; try assumption.
  unfold len.
  rewrite (@flat_map_rows_length _ _ _ _ (Z.to_nat (x1 - x0)))
    by (intros y; rewrite length_map; apply zrange_length).
  rewrite zrange_length, Nat2Z.inj_mul, !Z2Nat.id by lia. ring.
Qed.

Lemma pixel_hsv_some (p : Pixel) : exists hsv, pixel_hsv p = Some hsv.
Proof.
  unfold pixel_hsv. destruct (rgb_to_hsv_deg_pixel p) as [hsv Hhsv].
  rewrite Hhsv. exists hsv. reflexivity.
Qed.

(** The loop of [rain_coverage] keeps the first sample it takes. *)
Lemma rain_coverage_loop_sample (pixels : list Pixel) :
  forall (hit : Z) (sample_hsv : option HSV),
    rain_coverage_loop pixels hit sample_hsv =
      Ok (hit + hit_count pixels,
          match sample_hsv with
          | Some hsv => Some hsv
          | None => first_hit pixels
          end).
Proof.
  induction pixels as [| p rest IH]; intros hit sample_hsv.
  - cbn [rain_coverage_loop]. unfold hit_count, first_hit. cbn.
    rewrite Z.add_0_r. destruct sample_hsv; reflexivity.
  - cbn [rain_coverage_loop].
    destruct (is_rain_color_pixel p) as [reason Hp]. rewrite Hp. cbn [Py.bind].
    rewrite hit_count_cons. unfold first_hit. cbn [find].
    destruct (pixel_is_rain p) eqn:Hrain.
    + rewrite Z.add_assoc. destruct sample_hsv as [hsv |].
      * rewrite IH. reflexivity.
      * unfold pixel_hsv. destruct (rgb_to_hsv_deg_pixel p) as [hsv Hhsv].
        rewrite Hhsv. cbn [Py.bind]. rewrite IH. reflexivity.
    + rewrite Z.add_0_l. rewrite IH. reflexivity.
Qed.

Lemma first_hit_none (pixels : list Pixel) :
  first_hit pixels = None <-> hit_count pixels = 0.
Proof.
  unfold first_hit, hit_count.
  induction pixels as [| p rest IH]; [cbn; tauto |].
  cbn [find filter]. destruct (pixel_is_rain p).
  - destruct (pixel_hsv_some p) as [hsv Hhsv]. rewrite Hhsv. cbn [List.length].
    split; [discriminate | lia].
  - exact IH.
Qed.

(** The sample is the colour of a pixel the classifier accepts. *)
Lemma first_hit_is_rain (pixels : list Pixel) (h s v : Q) :
  first_hit pixels = Some (h, s, v) ->
  ((26 # 100) <= s)%Q /\ hue_in_ranges h HUE_RANGES_DEG = true.
Proof.
  unfold first_hit. destruct (find pixel_is_rain pixels) as [p |] eqn:Hfind; [| discriminate].
  apply find_some in Hfind. destruct Hfind as [_ Hrain].
  unfold pixel_hsv, pixel_is_rain in *.
  destruct (rgb_to_hsv_deg (to_rgb p)) as [[[h' s'] v'] | e] eqn:Hhsv; [| discriminate].
  intros Heq. injection Heq as -> -> ->.
  rewrite (is_rain_color_unfold _ Hhsv) in Hrain.
  destruct (Qlt_bool s SATURATION_THRESHOLD) eqn:Hsat; [discriminate |].
  destruct (hue_in_ranges h HUE_RANGES_DEG); [| discriminate].
  apply Qlt_bool_false in Hsat. split; [exact Hsat | reflexivity].
Qed.

(** [rain_coverage] on a region with pixels, with the sample it reports. *)
Lemma rain_coverage_with_sample (img : Image) (center_xy : Z * Z) (radius : Z)
  (region : Cropped) :
  crop img (clamped_box img center_xy radius) = Ok region ->
  data region <> [] ->
  rain_coverage img center_xy radius =
    Ok ((inject_Z (hit_count (data region)) / inject_Z (len (data region)))%Q,
        Sampled (size region) (hit_count (data region)) (len (data region))
          (inject_Z (hit_count (data region)) / inject_Z (len (data region)))%Q
          (first_hit (data region))).
Proof.
  intros Hcrop Hne. unfold rain_coverage. rewrite Hcrop. cbn [Py.bind].
  destruct (data region) as [| p rest] eqn:Hdata; [congruence |].
  rewrite rain_coverage_loop_sample. cbn [Py.bind]. rewrite Z.add_0_l.
  rewrite truediv_counts by apply len_pos. reflexivity.
Qed.

(** X11.  What [rain_coverage] returns is consistent: the ratio lies in
    [0, 1]; with the reason "empty region" it is 0; otherwise the reported
    [hit] and total satisfy [0 <= hit <= total], the total is the area of
    the reported region size and is positive, and the ratio is
    [hit / total]. *)
Theorem rain_coverage_result_invariants (img : Image) (center_xy : Z * Z) (radius : Z)
  (ratio : Q) (info : CoverageInfo) :
  rain_coverage img center_xy radius = Ok (ratio, info) ->
  (0 <= ratio /\ ratio <= 1)%Q /\
  match info with
  | EmptyRegion => ratio = 0%Q
  | Sampled region_size hit total reported sample =>
      reported = ratio /\ 0 < total /\ 0 <= hit <= total /\
      total = fst region_size * snd region_size /\
      ratio = (inject_Z hit / inject_Z total)%Q
  end.
Proof.
  intros Hrun.
  destruct (crop img (clamped_box img center_xy radius)) as [region | e] eqn:Hcrop;
    [| unfold rain_coverage in Hrun; rewrite Hcrop in Hrun; discriminate].
  destruct (data region) as [| p rest] eqn:Hdata.
  - unfold rain_coverage in Hrun. rewrite Hcrop in Hrun. cbn [Py.bind] in Hrun.
    rewrite Hdata in Hrun. injection Hrun as <- <-. split; [lra | reflexivity].
  - assert (Hne : data region <> []) by (rewrite Hdata; discriminate).
    rewrite (@rain_coverage_with_sample _ _ _ _ Hcrop Hne) in Hrun.
    injection Hrun as <- <-.
    pose proof (hit_count_bounds (data region)) as Hb.
    assert (Hpos : 0 < len (data region)) by (rewrite Hdata; apply len_pos).
    destruct (@ratio_bounds _ _ Hb Hpos) as [Hlo Hhi].
    split; [split; assumption |].
    destruct (clamped_box img center_xy radius) as [[[x0 y0] x1] y1].
    destruct (@crop_data_length _ _ _ _ _ _ Hcrop) as (_ & _ & Hsize & Hlen).
    rewrite Hsize. cbn [fst snd]. repeat split; try assumption; lia.
Qed.

Lemma rain_coverage_result_invariants_witness :
  (0 <= 75 # 500 /\ 75 # 500 <= 1)%Q /\
  (75 # 500 = 75 # 500 /\ 0 < 500 /\ 0 <= 75 <= 500 /\ 500 = fst (20, 25) * snd (20, 25) /\
   75 # 500 = (inject_Z 75 / inject_Z 500)%Q).
Proof.
  refine (@rain_coverage_result_invariants
            (Stubs.patch 5 15 Stubs.blue_px Stubs.gray_px) (640, 360) 12 (75 # 500)
            (Sampled (20, 25) 75 500 (75 # 500) _) _).
  vm_compute. reflexivity.
Defined.

(** X12.  The sample that [rain_coverage] reports with its counts is the
    HSV triple of the first accepted pixel in row-major order; it is missing
    exactly when no pixel was accepted, and when present its saturation is
    at least 0.26 and its hue lies in a configured range. *)
Theorem rain_coverage_sample_first_hit (img : Image) (center_xy : Z * Z) (radius : Z)
  (region : Cropped) :
  crop img (clamped_box img center_xy radius) = Ok region ->
  data region <> [] ->
  (exists ratio,
      rain_coverage img center_xy radius =
        Ok (ratio, Sampled (size region) (hit_count (data region)) (len (data region))
                           ratio (first_hit (data region))))
  /\ (first_hit (data region) = None <-> hit_count (data region) = 0)
  /\ (forall h s v, first_hit (data region) = Some (h, s, v) ->
        ((26 # 100) <= s)%Q /\ hue_in_ranges h HUE_RANGES_DEG = true).
Proof.
  intros Hcrop Hne. split; [| split].
  - eexists. apply (@rain_coverage_with_sample _ _ _ _ Hcrop Hne).
  - apply first_hit_none.
  - intros h s v. apply first_hit_is_rain.
Qed.

Lemma rain_coverage_sample_first_hit_witness :
  exists region,
    (exists ratio,
        rain_coverage Stubs.blue_yellow (0, 0) 1 =
          Ok (ratio, Sampled (size region) (hit_count (data region)) (len (data region))
                             ratio (first_hit (data region))))
    /\ (first_hit (data region) = None <-> hit_count (data region) = 0)
    /\ (forall h s v, first_hit (data region) = Some (h, s, v) ->
          ((26 # 100) <= s)%Q /\ hue_in_ranges h HUE_RANGES_DEG = true).
Proof.
  eexists.
  eapply (@rain_coverage_sample_first_hit Stubs.blue_yellow (0, 0) 1).
  - reflexivity.
  - cbn. discriminate.
Defined.

(** X13.  Every pixel the samplers look at is a pixel of the image, at most
    [radius] away from the centre in each direction: the clamped crop reads
    nothing outside the image. *)
Theorem sampled_pixels_within_radius (img : Image) (cx cy radius : Z) (region : Cropped) :
  crop img (clamped_box img (cx, cy) radius) = Ok region ->
  forall p, In p (data region) ->
  exists x y,
    p = getpixel img x y /\
    0 <= x < Z.of_N (width img) /\ 0 <= y < Z.of_N (height img) /\
    cx - radius <= x <= cx + radius /\ cy - radius <= y <= cy + radius.
Proof.
  intros Hcrop p Hp.
  destruct (crop_clamped_reads_image img cx cy radius Hcrop)
    as (x0 & y0 & x1 & y1 & Hbox & _ & _ & _ & _ & _ & Hdata).
  rewrite Hdata in Hp. apply in_flat_map in Hp. destruct Hp as (y & Hy & Hp).
  apply in_map_iff in Hp. destruct Hp as (x & Hpx & Hx).
  apply In_zrange in Hx. apply In_zrange in Hy.
  unfold clamped_box in Hbox. injection Hbox as <- <- <- <-.
  exists x, y. split; [symmetry; exact Hpx | lia].
Qed.

Lemma sampled_pixels_within_radius_witness :
  exists x y,
    Stubs.yellow_px = getpixel Stubs.blue_yellow x y /\
    0 <= x < Z.of_N (width Stubs.blue_yellow) /\ 0 <= y < Z.of_N (height Stubs.blue_yellow) /\
    0 - 1 <= x <= 0 + 1 /\ 0 - 1 <= y <= 0 + 1.
Proof.
  refine (@sampled_pixels_within_radius Stubs.blue_yellow 0 0 1
            {| size := (2, 1); data := [Stubs.blue_px; Stubs.yellow_px] |} _
            Stubs.yellow_px _).
  - reflexivity.
  - right. left. reflexivity.
Defined.

(** Both samplers on a centre inside the image. *)
Lemma centre_inside_samplers_return (img : Image) (cx cy radius : Z) :
  0 <= cx < Z.of_N (width img) ->
  0 <= cy < Z.of_N (height img) ->
  0 <= radius ->
  exists region,
    crop img (clamped_box img (cx, cy) radius) = Ok region /\
    In (getpixel img cx cy) (data region) /\
    1 <= len (data region) <= (2 * radius + 1) * (2 * radius + 1) /\
    (exists ratio sample,
        rain_coverage img (cx, cy) radius =
          Ok (ratio, Sampled (size region) (hit_count (data region)) (len (data region))
                             ratio sample)) /\
    (exists rgb, avg_color img (cx, cy) radius = Ok rgb).
Proof.
  intros Hcx Hcy Hr.
  destruct (clamped_box img (cx, cy) radius) as [[[x0 y0] x1] y1] eqn:Hbox.
  assert (Hcoords : x0 <= cx < x1 /\ y0 <= cy < y1 /\
                    x1 - x0 <= 2 * radius + 1 /\ y1 - y0 <= 2 * radius + 1).
  { unfold clamped_box in Hbox. injection Hbox as <- <- <- <-. lia. }
  destruct Hcoords as (Hx & Hy & Hw & Hh).
  destruct (crop img (x0, y0, x1, y1)) as [region | e] eqn:Hcrop.
  2:{ unfold crop in Hcrop.
      destruct (Z.ltb_spec x1 x0); [lia |]. destruct (Z.ltb_spec y1 y0); [lia |].
      discriminate. }
  destruct (@crop_data_length _ _ _ _ _ _ Hcrop) as (_ & _ & _ & Hlen).
  assert (Hcrop' : crop img (clamped_box img (cx, cy) radius) = Ok region)
    by (rewrite Hbox; exact Hcrop).
  assert (Hin : In (getpixel img cx cy) (data region)).
  { destruct (crop_clamped_reads_image img cx cy radius Hcrop')
      as (x0' & y0' & x1' & y1' & Hbox' & _ & _ & _ & _ & _ & Hdata).
    rewrite Hbox in Hbox'. injection Hbox' as <- <- <- <-.
    rewrite Hdata. apply in_flat_map. exists cy. split; [apply In_zrange; lia |].
    apply in_map_iff. exists cx. split; [reflexivity | apply In_zrange; lia]. }
  assert (Hne : data region <> []) by (intros Hnil; rewrite Hnil in Hin; destruct Hin).
  exists region. split; [reflexivity |]. split; [exact Hin |]. split.
  - rewrite Hlen. split; [nia | ]. apply Z.mul_le_mono_nonneg; lia.
  - split.
    + destruct (rain_coverage_sampled img (cx, cy) radius Hcrop' Hne)
        as (ratio & sample & Hrun & _).
      exists ratio, sample. exact Hrun.
    + destruct (data region) as [| p rest] eqn:Hdata; [congruence |].
      eexists. apply (@avg_color_means _ _ _ _ _ _ Hcrop' Hdata).
Qed.

(** X14.  With the centre inside the image and a radius that is not
    negative, both samplers return: the region holds the centre pixel, has
    between 1 and [(2 * radius + 1)^2] pixels, and [rain_coverage] reports
    counts, not an empty region. *)
Theorem samplers_return_for_centre_inside (img : Image) (cx cy radius : Z) :
  0 <= cx < Z.of_N (width img) ->
  0 <= cy < Z.of_N (height img) ->
  0 <= radius ->
  exists region,
    crop img (clamped_box img (cx, cy) radius) = Ok region /\
    In (getpixel img cx cy) (data region) /\
    1 <= len (data region) <= (2 * radius + 1) * (2 * radius + 1) /\
    (exists ratio sample,
        rain_coverage img (cx, cy) radius =
          Ok (ratio, Sampled (size region) (hit_count (data region)) (len (data region))
                             ratio sample)) /\
    (exists rgb, avg_color img (cx, cy) radius = Ok rgb).
Proof. exact (@centre_inside_samplers_return img cx cy radius). Qed.

Lemma samplers_return_for_centre_inside_witness :
  exists region,
    crop (uniform 1280 720 Stubs.gray_px)
         (clamped_box (uniform 1280 720 Stubs.gray_px) (640, 360) 12) = Ok region /\
    In (getpixel (uniform 1280 720 Stubs.gray_px) 640 360) (data region) /\
    1 <= len (data region) <= (2 * 12 + 1) * (2 * 12 + 1) /\
    (exists ratio sample,
        rain_coverage (uniform 1280 720 Stubs.gray_px) (640, 360) 12 =
          Ok (ratio, Sampled (size region) (hit_count (data region)) (len (data region))
                             ratio sample)) /\
    (exists rgb, avg_color (uniform 1280 720 Stubs.gray_px) (640, 360) 12 = Ok rgb).
Proof.
  apply (@samplers_return_for_centre_inside (uniform 1280 720 Stubs.gray_px) 640 360 12);
    cbn; lia.
Defined.

(** X1.  For every pixel of an RGB image [rgb_to_hsv_deg] returns, as its
    docstring says, a hue in degrees in [0, 360) and a saturation and a
    value in [0, 1]. *)
Theorem rgb_to_hsv_deg_ranges (p : Pixel) :
  exists h s v,
    rgb_to_hsv_deg (to_rgb p) = Ok (h, s, v) /\
    (0 <= h /\ h < 360 /\ 0 <= s /\ s <= 1 /\ 0 <= v /\ v <= 1)%Q.
Proof.
  assert (Hchannel : forall c : Byte.byte, (0 <= channel c <= 255)%Q).
  { intros c. pose proof (channel_value_bounds c) as [Hlo Hhi]. unfold channel.
    split; [change 0%Q with (inject_Z 0) | change 255%Q with (inject_Z 255)];
      rewrite <- Zle_Qle; assumption. }
  destruct p as [[r g] b]. unfold to_rgb.
  apply rgb_to_hsv_deg_channel_ranges; apply Hchannel.
Qed.

End MoreRegionFacts.

(** ** The displayed clock and the forward step *)

Section MoreClockFacts.
Import Py Trace Io Text Script Notions.
Local Open Scope string_scope.
Local Open Scope Z_scope.

Lemma clock_of_texts_hour_24 (hour_txt minute_txt ampm_txt : string) (h m : Z) :
  int hour_txt = Ok h -> int minute_txt = Ok m ->
  clock_of_texts hour_txt minute_txt ampm_txt = Ok (Some (hour_24 h ampm_txt, m)).
Proof.
  intros Hh Hm. erewrite clock_of_texts_parsed by eassumption. reflexivity.
Qed.

(** X15.  A 12-hour display (hour 1..12 with an AM or PM marker) is turned
    into the hour [H] of the 24-hour clock that agrees with it modulo 12 and
    is 12 or more exactly under a PM marker; the minute is kept. *)
Theorem twelve_hour_display_to_24h (W E : Type) (driver : Driver W E)
  (st st' : W * list Event) (hour_txt minute_txt ampm_txt : string) (h m : Z) :
  read_clock_texts driver st = (st', Ok (hour_txt, minute_txt, ampm_txt)) ->
  int hour_txt = Ok h ->
  int minute_txt = Ok m ->
  1 <= h <= 12 ->
  has_pm_marker ampm_txt || has_am_marker ampm_txt = true ->
  exists H,
    get_map_time_tuple driver st = (st', Ok (Some (H, m))) /\
    0 <= H <= 23 /\ H mod 12 = h mod 12 /\
    (12 <= H <-> has_pm_marker ampm_txt = true).
Proof.
  intros Hread Hh Hm Hrange Hmarker.
  erewrite get_map_time_tuple_of_texts by exact Hread.
  erewrite clock_of_texts_hour_24 by eassumption.
  exists (hour_24 h ampm_txt). split; [reflexivity |].
  unfold hour_24. destruct (has_pm_marker ampm_txt).
  - destruct (Z.ltb_spec h 12).
    + rewrite <- (Z.mod_add h 1 12) by lia. rewrite Z.mul_1_l.
      repeat split; lia.
    + repeat split; lia.
  - cbn [orb] in Hmarker. rewrite Hmarker.
    destruct (Z.eqb_spec h 12) as [-> | Hne];
      repeat split; first [lia | reflexivity | intros; discriminate].
Qed.

Lemma twelve_hour_display_to_24h_witness :
  exists H,
    get_map_time_tuple (Stubs.page (Some ("11", "59", "pm")) None 0) (0%nat, [])
      = ((0%nat, []), Ok (Some (H, 59))) /\
    0 <= H <= 23 /\ H mod 12 = 11 mod 12 /\
    (12 <= H <-> has_pm_marker "pm" = true).
Proof.
  apply (@twelve_hour_display_to_24h nat string (Stubs.page (Some ("11", "59", "pm")) None 0)
           (0%nat, []) (0%nat, []) "11" "59" "pm" 11 59);
    first [reflexivity | lia].
Defined.

(** X16.  A display without AM/PM marker, and any display whose hour is 13
    or more, is returned as parsed: hour and minute unchanged. *)
Theorem display_without_marker_unchanged (W E : Type) (driver : Driver W E)
  (st st' : W * list Event) (hour_txt minute_txt ampm_txt : string) (h m : Z) :
  read_clock_texts driver st = (st', Ok (hour_txt, minute_txt, ampm_txt)) ->
  int hour_txt = Ok h ->
  int minute_txt = Ok m ->
  (has_pm_marker ampm_txt = false /\ has_am_marker ampm_txt = false) \/ 13 <= h ->
  get_map_time_tuple driver st = (st', Ok (Some (h, m))).
Proof.
  intros Hread Hh Hm Hcase.
  erewrite get_map_time_tuple_of_texts by exact Hread.
  erewrite clock_of_texts_hour_24 by eassumption.
  unfold hour_24. destruct Hcase as [[Hpm Ham] | Hlate].
  - rewrite Hpm, Ham. reflexivity.
  - destruct (Z.ltb_spec h 12); [lia |]. destruct (Z.eqb_spec h 12); [lia |].
    destruct (has_pm_marker ampm_txt); [reflexivity |].
    destruct (has_am_marker ampm_txt); reflexivity.
Qed.

Lemma display_without_marker_unchanged_witness :
  get_map_time_tuple (Stubs.page (Some ("21", "05", "")) None 0) (0%nat, [])
    = ((0%nat, []), Ok (Some (21, 5))).
Proof.
  apply (@display_without_marker_unchanged nat string
           (Stubs.page (Some ("21", "05", "")) None 0)
           (0%nat, []) (0%nat, []) "21" "05" "" 21 5);
    first [reflexivity | left; split; reflexivity].
Defined.

(** X17.  [get_map_time_tuple] returns a time exactly when the three clock
    elements could be read and both the hour and the minute text parse as
    integers; the time is then the parsed minute with the hour adjusted for
    the marker. *)
Theorem get_map_time_tuple_some_iff (W E : Type) (driver : Driver W E)
  (st st' : W * list Event) (t : Z * Z) :
  get_map_time_tuple driver st = (st', Ok (Some t)) <->
  exists hour_txt minute_txt ampm_txt h m,
    read_clock_texts driver st = (st', Ok (hour_txt, minute_txt, ampm_txt)) /\
    int hour_txt = Ok h /\ int minute_txt = Ok m /\
    t = (hour_24 h ampm_txt, m).
Proof.
  split.
  - intros Hrun.
    destruct (@get_map_time_tuple_some _ _ _ _ _ _ Hrun)
      as (hour_txt & minute_txt & ampm_txt & Hread & Hclock).
    destruct (@clock_of_texts_some _ _ _ _ Hclock) as (h & m & Hh & Hm).
    exists hour_txt, minute_txt, ampm_txt, h, m.
    do 3 (split; [assumption |]).
    erewrite clock_of_texts_hour_24 in Hclock by eassumption.
    injection Hclock as <-. reflexivity.
  - intros (hour_txt & minute_txt & ampm_txt & h & m & Hread & Hh & Hm & ->).
    erewrite get_map_time_tuple_of_texts by exact Hread.
    erewrite clock_of_texts_hour_24 by eassumption. reflexivity.
Qed.

(** X18.  [get_map_time_tuple] never raises and prints nothing.  It returns
    [None] when an element cannot be found or read, when the hour or the
    minute text is empty, and when one of them is not an integer. *)
Theorem get_map_time_tuple_absent (W E : Type) (driver : Driver W E) (st : W * list Event) :
  (exists w' hhmm, get_map_time_tuple driver st = ((w', snd st), Ok hhmm))
  /\ (forall st' e,
        read_clock_texts driver st = (st', Raise e) ->
        get_map_time_tuple driver st = (st', Ok None))
  /\ (forall st' hour_txt minute_txt ampm_txt,
        read_clock_texts driver st = (st', Ok (hour_txt, minute_txt, ampm_txt)) ->
        hour_txt = "" \/ minute_txt = "" \/
        (exists e, int hour_txt = Raise e) \/ (exists e, int minute_txt = Raise e) ->
        get_map_time_tuple driver st = (st', Ok None)).
Proof.
  split; [apply get_map_time_tuple_returns |]. split.
  - intros st' e Hread. unfold get_map_time_tuple, try_except, Io.bind.
    rewrite Hread. reflexivity.
  - intros st' hour_txt minute_txt ampm_txt Hread Hcase.
    erewrite get_map_time_tuple_of_texts by exact Hread.
    unfold clock_of_texts.
    destruct Hcase as [-> | [-> | [[e He] | [e He]]]].
    + reflexivity.
    + rewrite orb_true_r. reflexivity.
    + destruct (is_empty hour_txt || is_empty minute_txt); [reflexivity |].
      rewrite He. reflexivity.
    + destruct (is_empty hour_txt || is_empty minute_txt); [reflexivity |].
      rewrite He. destruct (int hour_txt); reflexivity.
Qed.

(** X19.  [click_next] step by step.  A button that cannot be found or whose
    attribute cannot be read, a disabled button, and a click that fails all
    end in [NextButtonNotClickable]; a disabled button is never clicked and
    no settle wait follows a failure.  Only a click that went through is
    followed by the wait of 0.8 s and returns "minute.up".  Nothing is
    printed in any case. *)
Theorem click_next_cases (W E : Type) (driver : Driver W E) (st : W * list Event) :
  (forall w1 e,
      find_element driver NEXT_CSS (fst st) = (w1, Raise e) ->
      exists msg, click_next driver st = ((w1, snd st), Raise (NextButtonNotClickable msg)))
  /\ (forall w1 btn w2 e,
        find_element driver NEXT_CSS (fst st) = (w1, Ok btn) ->
        get_attribute driver btn "disabled" w1 = (w2, Raise e) ->
        exists msg, click_next driver st = ((w2, snd st), Raise (NextButtonNotClickable msg)))
  /\ (forall w1 btn w2 value,
        find_element driver NEXT_CSS (fst st) = (w1, Ok btn) ->
        get_attribute driver btn "disabled" w1 = (w2, Ok (Some value)) ->
        click_next driver st =
          ((w2, snd st), Raise (NextButtonNotClickable "next minute button is disabled")))
  /\ (forall w1 btn w2 w3 e,
        find_element driver NEXT_CSS (fst st) = (w1, Ok btn) ->
        get_attribute driver btn "disabled" w1 = (w2, Ok None) ->
        wait_and_click driver 5 NEXT_CSS w2 = (w3, Raise e) ->
        click_next driver st =
          ((w3, snd st), Raise (NextButtonNotClickable "next minute button not clickable")))
  /\ (forall w1 btn w2 w3,
        find_element driver NEXT_CSS (fst st) = (w1, Ok btn) ->
        get_attribute driver btn "disabled" w1 = (w2, Ok None) ->
        wait_and_click driver 5 NEXT_CSS w2 = (w3, Ok tt) ->
        click_next driver st = ((sleep driver STEP_SLEEP_SEC w3, snd st), Ok "minute.up")).
Proof.
  unfold click_next, Io.bind, try_except, call, raise, ret, time_sleep.
  repeat split.
  - intros w1 e Hfind. rewrite Hfind. cbn. destruct e; cbn; eexists; reflexivity.
  - intros w1 btn w2 e Hfind Hattr. rewrite Hfind. cbn. rewrite Hattr. cbn.
    destruct e; cbn; eexists; reflexivity.
  - intros w1 btn w2 value Hfind Hattr. rewrite Hfind. cbn. rewrite Hattr. reflexivity.
  - intros w1 btn w2 w3 e Hfind Hattr Hclick. rewrite Hfind. cbn. rewrite Hattr. cbn.
    rewrite Hclick. reflexivity.
  - intros w1 btn w2 w3 Hfind Hattr Hclick. rewrite Hfind. cbn. rewrite Hattr. cbn.
    rewrite Hclick. reflexivity.
Qed.

End MoreClockFacts.

(** ** The alignment loop *)

Section MoreAlignmentFacts.
Import Py Trace Io Text Script Notions.
Local Open Scope string_scope.
Local Open Scope Z_scope.

(** The shape of a loop output: ordinary lines, then one ending line; the
    ending is the exhaustion warning exactly when every iteration made a
    step. *)
Lemma loop_trace_ending (target_hhmm : Z * Z) (max_clicks remaining : nat) (out : list Event) :
  loop_trace target_hhmm max_clicks remaining out ->
  exists before last,
    out = (before ++ [last])%list /\
    is_ending last = true /\
    (forall ev, In ev before -> is_ending ev = false) /\
    (is_exhausted last = true <-> successful_steps out = remaining) /\
    (is_reached last = true ->
     exists now_hhmm, last = Print (SeekReached now_hhmm target_hhmm) /\
                      hhmm_ge now_hhmm target_hhmm = true).
Proof.
  induction 1 as [| k now Hge | k hhmm msg Hnot | k hhmm rest Hnot Hrest IH].
  - exists [], (Print SeekExhausted). repeat split; try reflexivity.
    + intros ev [].
    + intros Habs. discriminate.
  - exists [Print (SeekCurrent (Some now))], (Print (SeekReached now target_hhmm)).
    repeat split; try reflexivity.
    + intros ev [<- | []]. reflexivity.
    + intros Habs. discriminate.
    + unfold successful_steps. cbn. intros Habs. discriminate.
    + intros _. exists now. split; [reflexivity | exact Hge].
  - exists [Print (SeekCurrent hhmm)], (Print (SeekBlocked (NextButtonNotClickable msg))).
    repeat split; try reflexivity.
    + intros ev [<- | []]. reflexivity.
    + intros Habs. discriminate.
    + unfold successful_steps. cbn. intros Habs. discriminate.
    + intros Habs. discriminate.
  - destruct IH as (before & last & Hout & Hend & Hbefore & Hexh & Hreached).
    exists (Print (SeekCurrent hhmm)
              :: Print (SeekClick "minute.up" (max_clicks - S k + 1) max_clicks) :: before),
           last.
    split; [rewrite Hout; reflexivity |]. split; [exact Hend |]. split; [| split].
    + intros ev [<- | [<- | Hin]]; [reflexivity | reflexivity | exact (Hbefore ev Hin)].
    + rewrite Hexh. unfold successful_steps. cbn. lia.
    + exact Hreached.
Qed.

(** X20.  A run of [seek_to_target_time] for a target less than a day ahead
    ends in exactly one of three ways, shown by its last output line: target
    reached (the clock read last is not before the target), step blocked, or
    budget exhausted; no such line occurs earlier.  The exhaustion warning
    ends the run exactly when all [max_clicks] iterations made a step. *)
Theorem seek_ends_one_of_three_ways (W E : Type) (driver : Driver W E)
  (max_clicks : nat) (minutes_ahead : Z) (w : W) :
  0 <= minutes_ahead < 1440 ->
  exists before last,
    trace_of (seek_with driver max_clicks minutes_ahead) w = (before ++ [last])%list /\
    is_ending last = true /\
    (forall ev, In ev before -> is_ending ev = false) /\
    (is_exhausted last = true <->
     successful_steps (trace_of (seek_with driver max_clicks minutes_ahead) w) = max_clicks) /\
    (is_reached last = true ->
     exists now_hhmm,
       last = Print (SeekReached now_hhmm (target_of (now_beijing driver w) minutes_ahead)) /\
       hhmm_ge now_hhmm (target_of (now_beijing driver w) minutes_ahead) = true).
Proof.
  intros _.
  unfold trace_of. rewrite seek_with_unfold. cbn [fst snd app].
  set (target := target_of (now_beijing driver w) minutes_ahead).
  destruct (seek_loop_runs driver target max_clicks max_clicks
              (w, [Print (SeekTarget minutes_ahead target)]))
    as (w' & out & Hrun & Htrace).
  rewrite Hrun. cbn [fst snd app].
  destruct (loop_trace_ending Htrace) as (before & last & Hout & Hend & Hbefore & Hexh & Hreached).
  exists (Print (SeekTarget minutes_ahead target) :: before), last.
  split; [rewrite Hout; reflexivity |]. split; [exact Hend |]. split; [| split].
  - intros ev [<- | Hin]; [reflexivity | exact (Hbefore ev Hin)].
  - rewrite Hexh. unfold successful_steps. cbn. reflexivity.
  - exact Hreached.
Qed.

Lemma seek_ends_one_of_three_ways_witness :
  exists before last,
    trace_of (seek_with Stubs.blocks_on_third 60 15) 0%nat = (before ++ [last])%list /\
    is_ending last = true /\
    (forall ev, In ev before -> is_ending ev = false) /\
    (is_exhausted last = true <->
     successful_steps (trace_of (seek_with Stubs.blocks_on_third 60 15) 0%nat) = 60%nat) /\
    (is_reached last = true ->
     exists now_hhmm,
       last = Print (SeekReached now_hhmm
                       (target_of (now_beijing Stubs.blocks_on_third 0%nat) 15)) /\
       hhmm_ge now_hhmm (target_of (now_beijing Stubs.blocks_on_third 0%nat) 15) = true).
Proof.
  apply (@seek_ends_one_of_three_ways nat string Stubs.blocks_on_third 60 15 0%nat).
  lia.
Defined.

Lemma hhmm_ge_minutes (h m H M : Z) :
  0 <= m < 60 -> 0 <= M < 60 ->
  (hhmm_ge (h, m) (H, M) = true <-> H * 60 + M <= h * 60 + m).
Proof.
  intros Hm HM. rewrite hhmm_ge_spec. lia.
Qed.

(** X21.  No day rollover: when the target falls on the next day (now plus
    the minutes ahead passes midnight) and the page shows a time of today
    that is not before now, the loop takes the target as reached at its
    first look and makes no advance attempt at all. *)
Theorem seek_stops_at_once_across_midnight (W E : Type) (driver : Driver W E)
  (max_clicks : nat) (minutes_ahead : Z) (w : W) (st1 : W * list Event) (h m : Z) :
  0 <= now_beijing driver w < 1440 ->
  0 <= minutes_ahead < 1440 ->
  1440 <= now_beijing driver w + minutes_ahead ->
  get_map_time_tuple driver
    (w, [Print (SeekTarget minutes_ahead (target_of (now_beijing driver w) minutes_ahead))])
    = (st1, Ok (Some (h, m))) ->
  0 <= m < 60 ->
  now_beijing driver w <= h * 60 + m ->
  hhmm_ge (h, m) (target_of (now_beijing driver w) minutes_ahead) = true
  /\ advance_attempts (trace_of (seek_with driver max_clicks minutes_ahead) w) = 0%nat.
Proof.
  intros Hnow Hahead Hwrap Hread Hm Hshown.
  set (now := now_beijing driver w) in *.
  assert (Hge : hhmm_ge (h, m) (target_of now minutes_ahead) = true).
  { unfold target_of.
    replace ((now + minutes_ahead) mod 1440) with (now + minutes_ahead - 1440)
      by (apply Z.mod_unique with (q := 1); lia).
    set (T := now + minutes_ahead - 1440).
    apply hhmm_ge_minutes; [exact Hm | apply Z.mod_pos_bound; lia |].
    pose proof (Z.div_mod T 60 ltac:(lia)) as HT. lia. }
  split; [exact Hge |].
  unfold trace_of. rewrite seek_with_unfold. cbn [fst snd app]. fold now.
  destruct max_clicks as [| k]; [reflexivity |].
  destruct (seek_loop_iteration driver (target_of now minutes_ahead) (S k) k
              (w, [Print (SeekTarget minutes_ahead (target_of now minutes_ahead))]))
    as (w1 & hhmm & Hread' & Hyes & _).
  rewrite Hread in Hread'. injection Hread' as _ <-.
  destruct (Hyes Hge) as (now_hhmm & _ & _ & Hrun).
  rewrite Hrun. reflexivity.
Qed.

Lemma seek_stops_at_once_across_midnight_witness :
  hhmm_ge (23, 50) (target_of (23 * 60 + 50) 15) = true
  /\ advance_attempts
       (trace_of (seek_with (Stubs.page (Some ("23", "50", "")) None (23 * 60 + 50)) 60 15)
                 0%nat) = 0%nat.
Proof.
  apply (@seek_stops_at_once_across_midnight nat string
           (Stubs.page (Some ("23", "50", "")) None (23 * 60 + 50)) 60 15 0%nat
           (0%nat, [Print (SeekTarget 15 (target_of (23 * 60 + 50) 15))]) 23 50);
    first [reflexivity | cbn; lia].
Defined.

(** X22.  [hhmm_ge] is a total order on times: reflexive, transitive, total,
    and two times that are each not before the other are equal. *)
Theorem hhmm_ge_total_order :
  (forall a, hhmm_ge a a = true)
  /\ (forall a b c, hhmm_ge a b = true -> hhmm_ge b c = true -> hhmm_ge a c = true)
  /\ (forall a b, hhmm_ge a b = true \/ hhmm_ge b a = true)
  /\ (forall a b, hhmm_ge a b = true -> hhmm_ge b a = true -> a = b).
Proof.
  repeat split.
  - intros [h m]. apply hhmm_ge_spec. lia.
  - intros [h1 m1] [h2 m2] [h3 m3] H12 H23.
    apply hhmm_ge_spec in H12. apply hhmm_ge_spec in H23. apply hhmm_ge_spec. lia.
  - intros [h1 m1] [h2 m2]. rewrite !hhmm_ge_spec. lia.
  - intros [h1 m1] [h2 m2] H12 H21.
    apply hhmm_ge_spec in H12. apply hhmm_ge_spec in H21. f_equal; lia.
Qed.

End MoreAlignmentFacts.

(** ** The run *)

Section MoreRunFacts.
Import Py Trace Io Text Script Notions.
Context {W E : Type}.
Variable driver : Driver W E.

(** One attempt of the page-load loop. *)
Lemma load_page_step (url : string) (load_attempts rest : nat) (st : W * list Event) :
  (S rest <= load_attempts)%nat ->
  match get driver url (fst st) with
  | (w1, Ok _) => load_page driver url load_attempts (S rest) st = ((w1, snd st), Ok tt)
  | (w1, Raise e) =>
      match rest with
      | O =>
          load_page driver url load_attempts (S rest) st =
            ((w1, snd st ++ [Print (LoadFailed load_attempts load_attempts e);
                             Print LoadGaveUp]),
             Raise e)
      | S _ =>
          load_page driver url load_attempts (S rest) st =
            load_page driver url load_attempts rest
              (sleep driver 3 w1,
               snd st ++ [Print (LoadFailed (load_attempts - S rest + 1) load_attempts e);
                          Print RetryIn3s])
      end
  end.
Proof.
  intros Hle. cbn [load_page].
  unfold Io.bind, try_except, call, print, raise, ret, time_sleep. cbv beta.
  destruct (get driver url (fst st)) as [w1 [[] | e]]; cbn [fst snd].
  - reflexivity.
  - destruct rest as [| rest'].
    + replace (load_attempts - 1 <? load_attempts - 1)%nat with false
        by (symmetry; apply Nat.ltb_ge; lia).
      replace (load_attempts - 1 + 1)%nat with load_attempts by lia.
      cbn [fst snd]. rewrite <- app_assoc. reflexivity.
    + replace (load_attempts - S (S rest') <? load_attempts - 1)%nat with true
        by (symmetry; apply Nat.ltb_lt; lia).
      cbn [fst snd]. rewrite <- app_assoc. reflexivity.
Qed.

(** The loop by the outcomes of its loads, [remaining] attempts to go. *)
Lemma load_page_runs (url : string) (load_attempts remaining : nat) :
  (remaining <= load_attempts)%nat ->
  forall st : W * list Event,
  (forall es w_last w',
      failed_loads driver url (fst st) es w_last ->
      (List.length es < remaining)%nat ->
      get driver url w_last = (w', Ok tt) ->
      load_page driver url load_attempts remaining st =
        ((w', snd st ++ retry_lines load_attempts (load_attempts - remaining) es), Ok tt))
  /\ (forall es w_last w' e,
         failed_loads driver url (fst st) es w_last ->
         S (List.length es) = remaining ->
         get driver url w_last = (w', Raise e) ->
         load_page driver url load_attempts remaining st =
           ((w', snd st ++ retry_lines load_attempts (load_attempts - remaining) es
                   ++ [Print (LoadFailed load_attempts load_attempts e); Print LoadGaveUp]),
            Raise e)).
Proof.
  induction remaining as [| rest IH]; intros Hle st.
  - split.
    + intros es w_last w' _ Hlen. lia.
    + intros es w_last w' e _ Hlen. discriminate.
  - pose proof (load_page_step url st Hle) as Hstep. split.
    + intros es w_last w' Hfailed Hlen Hget.
      destruct Hfailed as [w | w w1 w_last e es Hfail Hfailed].
      * rewrite Hget in Hstep. rewrite Hstep. cbn [retry_lines]. rewrite app_nil_r.
        reflexivity.
      * rewrite Hfail in Hstep. cbn [List.length] in Hlen.
        destruct rest as [| rest']; [lia |]. rewrite Hstep.
        destruct (IH ltac:(lia)
                    (sleep driver 3 w1,
                     snd st ++ [Print (LoadFailed (load_attempts - S (S rest') + 1)
                                                  load_attempts e);
                                Print RetryIn3s])) as [Hloaded _].
        rewrite (Hloaded es w_last w' Hfailed ltac:(lia) Hget).
        cbn [fst snd retry_lines]. rewrite <- app_assoc.
        replace (load_attempts - S rest')%nat with (S (load_attempts - S (S rest')))%nat by lia.
        reflexivity.
    + intros es w_last w' e Hfailed Hlen Hget.
      destruct Hfailed as [w | w w1 w_last e0 es Hfail Hfailed].
      * rewrite Hget in Hstep. cbn [List.length] in Hlen.
        destruct rest as [| rest']; [| discriminate]. rewrite Hstep. reflexivity.
      * rewrite Hfail in Hstep. cbn [List.length] in Hlen.
        destruct rest as [| rest']; [discriminate |]. rewrite Hstep.
        destruct (IH ltac:(lia)
                    (sleep driver 3 w1,
                     snd st ++ [Print (LoadFailed (load_attempts - S (S rest') + 1)
                                                  load_attempts e0);
                                Print RetryIn3s])) as [_ Hgave_up].
        rewrite (Hgave_up es w_last w' e Hfailed ltac:(lia) Hget).
        cbn [fst snd retry_lines]. rewrite <- app_assoc.
        replace (load_attempts - S rest')%nat with (S (load_attempts - S (S rest')))%nat by lia.
        reflexivity.
Qed.

(** Every run meets a load that succeeds or uses up its attempts. *)
Lemma load_outcomes (url : string) (remaining : nat) :
  forall w : W,
  exists es w_last,
    failed_loads driver url w es w_last /\
    (remaining = 0%nat
     \/ ((List.length es < remaining)%nat /\ exists w', get driver url w_last = (w', Ok tt))
     \/ (S (List.length es) = remaining /\
         exists w' e, get driver url w_last = (w', Raise e))).
Proof.
  induction remaining as [| rest IH]; intros w.
  - exists [], w. split; [constructor | left; reflexivity].
  - destruct (get driver url w) as [w1 [[] | e]] eqn:Hget.
    + exists [], w. split; [constructor |]. right. left.
      split; [cbn; lia | exists w1; exact Hget].
    + destruct rest as [| rest'].
      * exists [], w. split; [constructor |]. right. right.
        split; [reflexivity | exists w1, e; exact Hget].
      * destruct (IH (sleep driver 3 w1)) as (es & w_last & Hfailed & Hcases).
        exists (e :: es), w_last. split; [econstructor; eassumption |].
        destruct Hcases as [Habs | [[Hlen Hok] | [Hlen Hraise]]]; [discriminate | |].
        -- right. left. split; [cbn; lia | exact Hok].
        -- right. right. split; [cbn; lia | exact Hraise].
Qed.

(** The guarded part of [main]: a body whose exceptions are reported and
    raised again, and the cleanup that closes the browser in every case. *)
Lemma reported_then_closed (body : io W unit) (st : W * list Event) :
  exists w_body log_body r_body,
    try_finally
      (try_except body (fun e => Io.bind (print (ErrorLine e)) (fun _ => raise e)))
      (Io.bind (print Cleanup) (fun _ => call (quit driver))) st
    = ((fst (quit driver w_body), log_body ++ [Print Cleanup]),
       match snd (quit driver w_body) with
       | Ok _ => r_body
       | Raise e => Raise e
       end) /\
    (forall e, r_body = Raise e -> exists before, log_body = before ++ [Print (ErrorLine e)]).
Proof.
  unfold try_finally, try_except, Io.bind, print, raise, call. cbv beta.
  destruct (body st) as [[wb lb] [[] | e]]; cbn [fst snd].
  - exists wb, lb, (Ok tt).
    destruct (quit driver wb) as [wq [[] | eq]]; cbn [fst snd];
      (split; [reflexivity | intros e He; discriminate]).
  - exists wb, (lb ++ [Print (ErrorLine e)]), (Raise e).
    destruct (quit driver wb) as [wq [[] | eq]]; cbn [fst snd];
      (split; [reflexivity | intros e' He; injection He as <-; exists lb; reflexivity]).
Qed.

Variable format_debug : DebugMsg -> string.

Lemma main_shape (webhook : string) :
  exists body : io W unit,
    main driver format_debug webhook =
      Io.bind (print ScriptVersion) (fun _ =>
      Io.bind (print (Step "[1/6]")) (fun _ =>
      Io.bind (call (new_driver driver default_viewport)) (fun _ =>
      try_finally
        (try_except body (fun e => Io.bind (print (ErrorLine e)) (fun _ => raise e)))
        (Io.bind (print Cleanup) (fun _ => call (quit driver)))))).
Proof. eexists. unfold main. reflexivity. Qed.

End MoreRunFacts.

Section MoreRunClaims.
Import Py Trace Io Text Script Notions.
Local Open Scope string_scope.

(** X23.  The page-load loop with [n] attempts, by the outcomes of
    [driver.get]: after loads that failed, each reported, announced as
    retried and followed by a pause of three seconds, the first load that
    succeeds ends the loop, which returns in the world that load left and
    prints nothing more; when [n - 1] loads have failed and the next fails
    too, the loop reports it, prints the give-up line and raises that
    exception, in the world the last load left, without a further pause.
    One of the two happens in every run with [n > 0]; with [n = 0] no load
    is made. *)
Theorem load_page_attempts (W E : Type) (driver : Driver W E) (url : string) (n : nat)
  (st : W * list Event) :
  (forall es w_last w',
      failed_loads driver url (fst st) es w_last ->
      (List.length es < n)%nat ->
      get driver url w_last = (w', Ok tt) ->
      load_page driver url n n st = ((w', (snd st ++ retry_lines n 0 es)%list), Ok tt))
  /\ (forall es w_last w' e,
         failed_loads driver url (fst st) es w_last ->
         S (List.length es) = n ->
         get driver url w_last = (w', Raise e) ->
         load_page driver url n n st =
           ((w', (snd st ++ retry_lines n 0 es
                    ++ [Print (LoadFailed n n e); Print LoadGaveUp])%list),
            Raise e))
  /\ (n = 0%nat -> load_page driver url n n st = (st, Ok tt))
  /\ (exists es w_last,
         failed_loads driver url (fst st) es w_last /\
         (n = 0%nat
          \/ ((List.length es < n)%nat /\ exists w', get driver url w_last = (w', Ok tt))
          \/ (S (List.length es) = n /\ exists w' e, get driver url w_last = (w', Raise e)))).
Proof.
  destruct (load_page_runs driver url (le_n n) st) as [Hloaded Hgave_up].
  rewrite Nat.sub_diag in Hloaded, Hgave_up.
  split; [exact Hloaded |]. split; [exact Hgave_up |]. split.
  - intros ->. reflexivity.
  - destruct (load_outcomes driver url n (fst st)) as (es & w_last & Hfailed & Hcases).
    exists es, w_last. split; assumption.
Qed.

Lemma load_page_attempts_witness :
  load_page Stubs.broken "u" 3 3 (0%nat, []) =
    ((0%nat,
      [Print (LoadFailed 1 3 (WebDriverException "net::ERR_CONNECTION_CLOSED"));
       Print RetryIn3s;
       Print (LoadFailed 2 3 (WebDriverException "net::ERR_CONNECTION_CLOSED"));
       Print RetryIn3s;
       Print (LoadFailed 3 3 (WebDriverException "net::ERR_CONNECTION_CLOSED"));
       Print LoadGaveUp]),
     Raise (WebDriverException "net::ERR_CONNECTION_CLOSED")).
Proof.
  refine (proj1 (proj2 (@load_page_attempts nat string Stubs.broken "u" 3 (0%nat, [])))
            [WebDriverException "net::ERR_CONNECTION_CLOSED";
             WebDriverException "net::ERR_CONNECTION_CLOSED"] 0%nat 0%nat
            (WebDriverException "net::ERR_CONNECTION_CLOSED") _ _ _).
  - apply failed_again with (w1 := 0%nat); [reflexivity |].
    apply failed_again with (w1 := 0%nat); [reflexivity |].
    apply failed_none.
  - reflexivity.
  - reflexivity.
Defined.

(** X24.  [main] closes the browser whenever it got one: if creating the
    driver fails, that exception leaves [main] after the first two output
    lines and nothing is closed; otherwise the last output line is the
    cleanup line, the last call to the driver is [quit], an exception of
    [quit] is what [main] raises, and an exception raised before it is
    reported in the line just before the cleanup line. *)
Theorem main_closes_browser (W E : Type) (driver : Driver W E)
  (format_debug : DebugMsg -> string) (webhook : string) (w : W) :
  (forall w1 e,
      new_driver driver default_viewport w = (w1, Raise e) ->
      main driver format_debug webhook (w, []) =
        ((w1, [Print ScriptVersion; Print (Step "[1/6]")]), Raise e))
  /\ (forall w1,
        new_driver driver default_viewport w = (w1, Ok tt) ->
        exists w_body log_body,
          trace_of (main driver format_debug webhook) w = (log_body ++ [Print Cleanup])%list /\
          fst (fst (main driver format_debug webhook (w, []))) = fst (quit driver w_body) /\
          (forall e, snd (quit driver w_body) = Raise e ->
                     outcome_of (main driver format_debug webhook) w = Raise e) /\
          (forall e, snd (quit driver w_body) = Ok tt ->
                     outcome_of (main driver format_debug webhook) w = Raise e ->
                     exists before, log_body = (before ++ [Print (ErrorLine e)])%list)).
Proof.
  destruct (main_shape driver format_debug webhook) as [body Hmain]. split.
  - intros w1 e Hnew. rewrite Hmain. unfold Io.bind, print, call. cbn [fst snd].
    rewrite Hnew. reflexivity.
  - intros w1 Hnew.
    destruct (reported_then_closed driver body
                (w1, [Print ScriptVersion; Print (Step "[1/6]")]))
      as (w_body & log_body & r_body & Hrun & Hreport).
    assert (Heq : main driver format_debug webhook (w, []) =
                  ((fst (quit driver w_body), (log_body ++ [Print Cleanup])%list),
                   match snd (quit driver w_body) with
                   | Ok _ => r_body
                   | Raise e => Raise e
                   end)).
    { rewrite Hmain. unfold Io.bind at 1 2 3, print at 1 2, call at 1.
      cbn [fst snd app]. rewrite Hnew. exact Hrun. }
    exists w_body, log_body. unfold trace_of, outcome_of. rewrite Heq. cbn [fst snd].
    split; [reflexivity |]. split; [reflexivity |]. split.
    + intros e Hquit. rewrite Hquit. reflexivity.
    + intros e Hquit Hout. rewrite Hquit in Hout. exact (Hreport e Hout).
Qed.

(** X25.  A screenshot narrower than 633 or lower than 353 pixels makes
    the report step raise the [ValueError] of [crop] (the box of [avg_color]
    around (640, 360) with radius 7 is inverted) before anything is printed
    or sent. *)
Theorem sample_and_report_small_screenshot (W E : Type) (driver : Driver W E)
  (format_debug : DebugMsg -> string) (webhook url : string)
  (img : Region.Image) (st : W * list Event) :
  (Z.of_N (Region.width img) < 633 \/ Z.of_N (Region.height img) < 353)%Z ->
  exists msg,
    sample_and_report driver format_debug webhook url default_viewport img st =
      (st, Raise (ValueError msg)).
Proof.
  intros Hsmall.
  destruct (Region.clamped_box img (640, 360)%Z 7) as [[[x0 y0] x1] y1] eqn:Hbox.
  assert (Hcoords : (x0 = 633 /\ y0 = 353 /\
                     (x1 < x0 <-> Z.of_N (Region.width img) < 633) /\
                     (y1 < y0 <-> Z.of_N (Region.height img) < 353))%Z).
  { unfold Region.clamped_box in Hbox. injection Hbox as <- <- <- <-. lia. }
  destruct Hcoords as (_ & _ & Hx & Hy).
  destruct (avg_color_cases img (640, 360)%Z 7 Hbox) as (Hright & Hlower & _).
  assert (Hraise : exists msg, Region.avg_color img (640, 360)%Z 7 = Raise (ValueError msg)).
  { destruct (Z.lt_ge_cases x1 x0) as [Hlt | Hge].
    - eexists. exact (Hright Hlt).
    - eexists. apply (Hlower Hge). destruct Hsmall as [Hw | Hh]; [lia | apply Hy; exact Hh]. }
  destruct Hraise as [msg Hraise]. exists msg.
  unfold sample_and_report.
  change (vp_width default_viewport / 2)%Z with 640%Z.
  change (vp_height default_viewport / 2)%Z with 360%Z.
  unfold Io.bind at 1, lift at 1. rewrite Hraise. reflexivity.
Qed.

Lemma sample_and_report_small_screenshot_witness :
  exists msg,
    sample_and_report Stubs.never_reaches Stubs.no_debug_text "https://hook" "u"
      default_viewport (Region.uniform 630 720 Stubs.blue_px) (0%nat, []) =
      ((0%nat, []), Raise (ValueError msg)).
Proof.
  apply (@sample_and_report_small_screenshot nat string Stubs.never_reaches
           Stubs.no_debug_text "https://hook" "u" (Region.uniform 630 720 Stubs.blue_px)).
  left. cbn. lia.
Defined.

(** X26.  On a screenshot that contains the sampling centre (more than 640
    wide and more than 360 high) both samplers return, and the report step
    can only fail through the webhook.  Without a webhook, or with a
    coverage below 0.10, it returns, posts nothing and leaves the outside
    world as it was.  With a webhook and a coverage of at least 0.10 it
    posts once, a payload of type "text" whose content is the rain message,
    and its outcome is the outcome of that request. *)
Theorem sample_and_report_full_screenshot (W E : Type) (driver : Driver W E)
  (format_debug : DebugMsg -> string) (webhook url : string)
  (img : Region.Image) (st : W * list Event) :
  (640 < Z.of_N (Region.width img))%Z ->
  (360 < Z.of_N (Region.height img))%Z ->
  exists rgb coverage info,
    Region.avg_color img (640, 360)%Z 7 = Ok rgb /\
    Region.rain_coverage img (640, 360)%Z 12 = Ok (coverage, info) /\
    (is_empty webhook = true \/ Qle_bool (10 # 100) coverage = false ->
       exists out,
         sample_and_report driver format_debug webhook url default_viewport img st =
           ((fst st, (snd st ++ out)%list), Ok tt) /\
         posts out = 0%nat) /\
    (is_empty webhook = false -> Qle_bool (10 # 100) coverage = true ->
       exists out,
         posts out = 0%nat /\
         sample_and_report driver format_debug webhook url default_viewport img st =
           ((fst (post driver webhook
                    {| msgtype := "text";
                       content := message_of format_debug url (debug_of rgb coverage info) |}
                    (fst st)),
             (snd st ++ out
                ++ [HttpPost webhook
                      (message_of format_debug url (debug_of rgb coverage info))])%list),
            snd (post driver webhook
                   {| msgtype := "text";
                      content := message_of format_debug url (debug_of rgb coverage info) |}
                   (fst st)))).
Proof.
  intros Hw Hh.
  destruct (@centre_inside_samplers_return img 640 360 7) as (_ & _ & _ & _ & _ & rgb & Havg);
    [lia | lia | lia |].
  destruct (@centre_inside_samplers_return img 640 360 12)
    as (region & _ & _ & _ & (coverage & sample & Hcov) & _); [lia | lia | lia |].
  exists rgb, coverage. eexists. split; [exact Havg |]. split; [exact Hcov |].
  rewrite (sample_and_report_unfold driver format_debug webhook url img st Havg Hcov).
  split.
  - intros Hquiet. destruct (Qle_bool (10 # 100) coverage) eqn:Hcovb.
    + destruct Hquiet as [Hempty | Habs]; [| discriminate].
      unfold send_wecom_text. rewrite Hempty. unfold print. cbn [fst snd].
      rewrite <- app_assoc. eexists. split; reflexivity.
    + eexists. split; reflexivity.
  - intros Hhook Hrain. rewrite Hrain. unfold send_wecom_text. rewrite Hhook.
    unfold Io.bind, record, call. cbn [fst snd].
    destruct (post driver webhook _ (fst st)) as [w' r]. cbn [fst snd].
    rewrite <- app_assoc. eexists. split; [| reflexivity]. reflexivity.
Qed.

Lemma sample_and_report_full_screenshot_witness :
  exists rgb coverage info,
    Region.avg_color (Stubs.patch 5 15 Stubs.blue_px Stubs.gray_px) (640, 360)%Z 7 = Ok rgb /\
    Region.rain_coverage (Stubs.patch 5 15 Stubs.blue_px Stubs.gray_px) (640, 360)%Z 12
      = Ok (coverage, info) /\
    (is_empty "" = true \/ Qle_bool (10 # 100) coverage = false ->
       exists out,
         sample_and_report Stubs.broken Stubs.no_debug_text "" "u" default_viewport
           (Stubs.patch 5 15 Stubs.blue_px Stubs.gray_px) (0%nat, []) =
           ((0%nat, ([] ++ out)%list), Ok tt) /\
         posts out = 0%nat).
Proof.
  destruct (@sample_and_report_full_screenshot nat string Stubs.broken Stubs.no_debug_text
              "" "u" (Stubs.patch 5 15 Stubs.blue_px Stubs.gray_px) (0%nat, []))
    as (rgb & coverage & info & Havg & Hcov & Hquiet & _).
  - cbn. lia.
  - cbn. lia.
  - exists rgb, coverage, info. split; [exact Havg |]. split; [exact Hcov | exact Hquiet].
Defined.

End MoreRunClaims.
